(** * unknownutil: runtime type predicates and their optional modifier

    A shallow embedding of [src/is.ts] (the predicate combinators) and of
    [as.ts] (the [Optional] / [Required] modifiers), with the laws the
    specification states about them.

    Conventions of the embedding.
    - A value under test is a JavaScript value: a primitive, an ordinary
      (dense) array, a function, or an ordinary object given by its own
      enumerable string-keyed properties in enumeration order.  A property
      is given by the outcome of reading it: the value read, or the
      exception that its getter raises.  Numbers are IEEE binary64 floats,
      so [NaN] and the two zeros are present.
    - The objects are those whose prototype is [Object.prototype]: reading
      a key that the object does not own gives what [Object.prototype]
      holds under it, and [undefined] when it holds nothing.  The arrays
      are those that own nothing but their elements, so that [x.every] and
      [x.slice] are the methods of [Array.prototype].  Values are finite
      trees.  Proxies, arrays that shadow a method, classes and the kinds of
      functions are not part of the model, and [isFunction],
      [isSyncFunction], [isAsyncFunction] and [isInstanceOf], which depend
      on them, are left out.
    - A predicate is a function from values to [Res bool]: calling a
      JavaScript function either returns or raises, and an exception raised
      by a callee propagates through the caller in evaluation order.
    - A predicate that the program handles as an object (to compare it with
      [===], to attach a property or metadata to it) is a [Fn]: an address
      together with its code.  Properties and metadata live in a [State]
      keyed by address. *)

From Stdlib Require Import Floats.
From stdpp Require Import base option list strings gmap.

Local Open Scope string_scope.
Local Open Scope nat_scope.

Set Warnings "-register-all".

(** ** JavaScript values and exceptions *)

Module Js.
Inductive primitive : Type :=
| PString (s : string)
| PNumber (f : float)
| PBigInt (z : Z)
| PBoolean (b : bool)
| PNull
| PUndefined
| PSymbol (id : nat).

Inductive exn : Type :=
| TypeError
| UserError (msg : string).

(** The outcome of evaluating an expression: a value or a raised exception. *)
Inductive Res (A : Type) : Type :=
| Ok (a : A)
| Throw (e : exn).
Arguments Ok {A} a.
Arguments Throw {A} e.

Inductive value : Type :=
| VPrim (p : primitive)
| VArray (elems : list value)
| VObject (props : list (string * Res value))
| VFunction (id : nat).

Definition undefined : value := VPrim PUndefined.


Definition bind {A B} (m : Res A) (f : A -> Res B) : Res B :=
  match m with
  | Ok a => f a
  | Throw e => Throw e
  end.

Notation "'let*' x ':=' m 'in' k" := (bind m (fun x => k))
  (at level 10, x name, m at level 100, k at level 200).

(** [typeof x] *)
Definition typeof (x : value) : string :=
  match x with
  | VPrim (PString _) => "string"
  | VPrim (PNumber _) => "number"
  | VPrim (PBigInt _) => "bigint"
  | VPrim (PBoolean _) => "boolean"
  | VPrim PNull => "object"
  | VPrim PUndefined => "undefined"
  | VPrim (PSymbol _) => "symbol"
  | VArray _ => "object"
  | VObject _ => "object"
  | VFunction _ => "function"
  end.

(** [x === lit] for a primitive [lit]: numbers compare as IEEE floats (so
    [NaN] differs from itself and [+0] equals [-0]), symbols by identity,
    and a non-primitive [x] is never identical to a primitive. *)
Definition strictEquals (x : value) (lit : primitive) : bool :=
  match x, lit with
  | VPrim (PString a), PString b => bool_decide (a = b)
  | VPrim (PNumber a), PNumber b => PrimFloat.eqb a b
  | VPrim (PBigInt a), PBigInt b => bool_decide (a = b)
  | VPrim (PBoolean a), PBoolean b => bool_decide (a = b)
  | VPrim PNull, PNull => true
  | VPrim PUndefined, PUndefined => true
  | VPrim (PSymbol a), PSymbol b => bool_decide (a = b)
  | _, _ => false
  end.

(** [Number.isNaN] on a primitive and on a value. *)
Definition is_NaN (p : primitive) : bool :=
  match p with
  | PNumber f => PrimFloat.is_nan f
  | _ => false
  end.

Definition is_NaN_value (x : value) : bool :=
  match x with
  | VPrim p => is_NaN p
  | _ => false
  end.

(** The SameValueZero comparison of [Array.prototype.includes]: as [===],
    except that [NaN] is the same as [NaN]. *)
Definition sameValueZero (x : value) (lit : primitive) : bool :=
  match x, lit with
  | VPrim (PNumber a), PNumber b =>
      PrimFloat.eqb a b || (PrimFloat.is_nan a && PrimFloat.is_nan b)
  | _, _ => strictEquals x lit
  end.

(** Short-circuit [a && b] and [a || b] on boolean operands: the right
    operand is evaluated (and may raise) only when the left one does not
    decide the result. *)
Definition and_then (a b : Res bool) : Res bool :=
  let* x := a in if x then b else Ok false.
Definition or_else (a b : Res bool) : Res bool :=
  let* x := a in if x then Ok true else b.

Notation "a &&& b" := (and_then a b) (at level 40, left associativity).
Notation "a ||| b" := (or_else a b) (at level 50, left associativity).

(** [l.every(f)] and [l.some(f)] over the elements of a list, the callback
    receiving the element and its index; both stop at the first element
    that decides the result. *)
Fixpoint every_from {A} (i : nat) (f : A -> nat -> Res bool) (l : list A) : Res bool :=
  match l with
  | [] => Ok true
  | a :: l' => let* b := f a i in if b then every_from (S i) f l' else Ok false
  end.

Fixpoint some_from {A} (i : nat) (f : A -> nat -> Res bool) (l : list A) : Res bool :=
  match l with
  | [] => Ok false
  | a :: l' => let* b := f a i in if b then Ok true else some_from (S i) f l'
  end.

Definition every {A} (f : A -> nat -> Res bool) (l : list A) : Res bool :=
  every_from 0 f l.
Definition some {A} (f : A -> nat -> Res bool) (l : list A) : Res bool :=
  some_from 0 f l.

(** The loop [for (const k in ...) { if (!check(k)) return false; }
    return true;] over the keys it visits. *)
Fixpoint for_in_all (keys : list string) (check : string -> Res bool) : Res bool :=
  match keys with
  | [] => Ok true
  | k :: keys' =>
      let* b := check k in
      if negb b then Ok false else for_in_all keys' check
  end.

(** [x == null]: true of [null] and of [undefined] only. *)
Definition loosely_equals_null (x : value) : bool :=
  match x with
  | VPrim PNull | VPrim PUndefined => true
  | _ => false
  end.

(** [Array.isArray(x)] *)
Definition Array_isArray (x : value) : bool :=
  match x with
  | VArray _ => true
  | _ => false
  end.

(** The array operations the code uses on a value it has narrowed to an
    array: [x.length], [x[i]], [x.slice(from, to)], [x.every(f)].  On a
    value that is not an array they are modelled as raising [TypeError]
    (JavaScript raises for [null] and [undefined] only, so the model is
    the stricter one). *)
Definition elements (x : value) : Res (list value) :=
  match x with
  | VArray xs => Ok xs
  | _ => Throw TypeError
  end.

Definition length_of (x : value) : Res nat :=
  let* xs := elements x in Ok (length xs).

Definition index (x : value) (i : nat) : Res value :=
  let* xs := elements x in Ok (nth i xs undefined).

Definition slice (x : value) (from : nat) (to : option nat) : Res value :=
  let* xs := elements x in
  match to with
  | Some to => Ok (VArray (drop from (take to xs)))
  | None => Ok (VArray (drop from xs))
  end.

Definition Array_every (x : value) (f : value -> nat -> Res bool) : Res bool :=
  let* xs := elements x in every f xs.

(** The keys a [for (const k in x)] loop visits: the enumerable string keys
    in enumeration order; a value without enumerable properties gives no
    iteration. *)
Definition for_in_keys (x : value) : list string :=
  match x with
  | VObject props => props.*1
  | _ => []
  end.

(** [Object.keys(x)] on a value the code has narrowed to a record.  On a
    value that is not an object it is modelled as raising [TypeError] (as
    JavaScript does for [null] and [undefined]). *)
Definition Object_keys (x : value) : Res (list string) :=
  match x with
  | VObject props => Ok (props.*1)
  | _ => Throw TypeError
  end.

Fixpoint assoc {A} (k : string) (l : list (string * A)) : option A :=
  match l with
  | [] => None
  | (k', a) :: l' => if bool_decide (k' = k) then Some a else assoc k l'
  end.

(** The properties of [Object.prototype] (ECMA-262, 20.1.3 and B.2.2),
    which every ordinary object inherits.  Each holds a built-in function,
    and none is enumerable: [for ... in] and [Object.keys] do not list
    them.  The accessor [__proto__] is not listed: Deno deletes it. *)
Definition Object_prototype : list (string * value) :=
  [("constructor", VFunction 0);
   ("__defineGetter__", VFunction 1);
   ("__defineSetter__", VFunction 2);
   ("hasOwnProperty", VFunction 3);
   ("__lookupGetter__", VFunction 4);
   ("__lookupSetter__", VFunction 5);
   ("isPrototypeOf", VFunction 6);
   ("propertyIsEnumerable", VFunction 7);
   ("toString", VFunction 8);
   ("valueOf", VFunction 9);
   ("toLocaleString", VFunction 10)].

(** What an object reads under a key it does not own: the property of its
    prototype, or [undefined] at the end of the chain. *)
Definition inherited (k : string) : value :=
  default undefined (assoc k Object_prototype).

(** The property read [x[k]] on a value the code has narrowed to a record:
    the outcome of reading the own property when there is one, and the
    inherited value otherwise.  On a value that is not an object it is
    modelled as raising [TypeError] (as JavaScript does for [null] and
    [undefined]). *)
Definition get (x : value) (k : string) : Res value :=
  match x with
  | VObject props =>
      match assoc k props with
      | Some r => r
      | None => Ok (inherited k)
      end
  | _ => Throw TypeError
  end.

End Js.
Import Js.

(** ** Function objects, their properties and their metadata *)

Module Obj.

(** A predicate: [(x: unknown) => x is T]. *)
Definition Predicate : Type := value -> Res bool.

(** A function object: its identity and its code.  Two function objects
    are the same object ([===]) when their addresses are equal. *)
Record Fn : Type := mkFn { addr : nat; call : Predicate }.

(** [{ name, args }]: the factory that built a predicate and its arguments. *)
Record PredicateFactoryMetadata : Type :=
  mkMetadata { name : string; args : list Fn }.

(** What the program has allocated and attached so far: the next free
    address, the function objects that own the property [optional: true],
    and the metadata attached to function objects. *)
Record State : Type := mkState {
  next_addr : nat;
  optional_props : gset nat;
  metadata : gmap nat PredicateFactoryMetadata
}.

Definition initial : State :=
  {| next_addr := 0; optional_props := ∅; metadata := ∅ |}.

(** Evaluating a function expression (or declaration) creates a new
    function object. *)
Definition new_function (code : Predicate) (st : State) : Fn * State :=
  ({| addr := next_addr st; call := code |},
   {| next_addr := S (next_addr st);
      optional_props := optional_props st;
      metadata := metadata st |}).

(** [Object.defineProperties(f, { optional: { value: true } })]: returns [f]. *)
Definition define_optional (f : Fn) (st : State) : Fn * State :=
  (f,
   {| next_addr := next_addr st;
      optional_props := {[ addr f ]} ∪ optional_props st;
      metadata := metadata st |}).

(** [f] is an object the program has created. *)
Definition allocated (st : State) (f : Fn) : Prop := addr f < next_addr st.

(** Every property and every metadata entry belongs to a created object. *)
Definition well_formed (st : State) : Prop :=
  (∀ a, a ∈ optional_props st → a < next_addr st)
  ∧ (∀ a, is_Some (metadata st !! a) → a < next_addr st).

End Obj.
Import Obj.

(** ** src/is.ts: the predicates and their combinators

    A factory below is the arrow function it returns.  The [name] getter
    that [Object.defineProperties] adds to it only renders a display name
    through [inspect] and is left out. *)

Module Is.

Definition isAny (_x : value) : Res bool := Ok true.

Definition isUnknown (_x : value) : Res bool := Ok true.

Definition isString (x : value) : Res bool :=
  Ok (bool_decide (typeof x = "string")).

Definition isNumber (x : value) : Res bool :=
  Ok (bool_decide (typeof x = "number")).

Definition isBigInt (x : value) : Res bool :=
  Ok (bool_decide (typeof x = "bigint")).

Definition isBoolean (x : value) : Res bool :=
  Ok (bool_decide (typeof x = "boolean")).

Definition isArray (x : value) : Res bool := Ok (Array_isArray x).

Definition isArrayOf (pred : Predicate) : Predicate :=
  fun x => isArray x &&& Array_every x (fun v _ => pred v).

(** [predElse] is [None] for the one-argument call ([!predElse]). *)
Definition isTupleOf (predTup : list Predicate) (predElse : option Predicate)
  : Predicate :=
  match predElse with
  | None => fun x =>
      let* mismatch :=
        (let* a := isArray x in Ok (negb a))
        ||| (let* n := length_of x in Ok (bool_decide (n ≠ length predTup))) in
      if mismatch then Ok false
      else every (fun pred i => let* v := index x i in pred v) predTup
  | Some predElse => fun x =>
      let* short :=
        (let* a := isArray x in Ok (negb a))
        ||| (let* n := length_of x in Ok (bool_decide (n < length predTup)%nat)) in
      if short then Ok false
      else
        let* head := slice x 0 (Some (length predTup)) in
        let* tail := slice x (length predTup) None in
        every (fun pred i => let* v := index head i in pred v) predTup
        &&& predElse tail
  end.

Definition isReadonlyTupleOf (predTup : list Predicate)
    (predElse : option Predicate) : Predicate :=
  match predElse with
  | None => isTupleOf predTup None
  | Some predElse => isTupleOf predTup (Some predElse)
  end.

(** [pred] defaults to [isAny]; [Array(n).fill(pred)] is [n] copies of it. *)
Definition isUniformTupleOf (n : nat) (pred : option Predicate) : Predicate :=
  let pred := default isAny pred in
  let predInner := isTupleOf (replicate n pred) None in
  fun x => predInner x.

Definition isReadonlyUniformTupleOf (n : nat) (pred : option Predicate)
  : Predicate :=
  isUniformTupleOf n pred.

Definition isNull (x : value) : Res bool :=
  Ok (strictEquals x PNull).

Definition isUndefined (x : value) : Res bool :=
  Ok (bool_decide (typeof x = "undefined")).

Definition isNullish (x : value) : Res bool :=
  Ok (loosely_equals_null x).

Definition isSymbol (x : value) : Res bool :=
  Ok (bool_decide (typeof x = "symbol")).

Definition isRecord (x : value) : Res bool :=
  let* c := isNullish x ||| isArray x in
  if c then Ok false
  else Ok (bool_decide (typeof x = "object")).

Definition isRecordOf (pred : Predicate) : Predicate :=
  fun x =>
    let* r := isRecord x in
    if negb r then Ok false
    else for_in_all (for_in_keys x) (fun k => let* v := get x k in pred v).

(** A descriptor [predObj] is an object whose properties are predicates:
    its keys in enumeration order, each with its predicate.  Calling a
    property that is not there raises [TypeError]. *)
Definition isObjectOfLoose (predObj : list (string * Predicate)) : Predicate :=
  fun x =>
    let* r := isRecord x in
    if negb r then Ok false
    else
      for_in_all (predObj.*1) (fun k =>
        let* v := get x k in
        match assoc k predObj with
        | Some pred => pred v
        | None => Throw TypeError
        end).

Definition isObjectOfStrict (predObj : list (string * Predicate)) : Predicate :=
  let keys : gset string := list_to_set (predObj.*1) in
  let pred := isObjectOfLoose predObj in
  fun x =>
    let* ok := pred x in
    if negb ok then Ok false
    else
      let* ks := Object_keys x in
      Ok (bool_decide (length ks ≤ size keys)%nat
          && forallb (fun k => bool_decide (k ∈ keys)) ks).

(** [strict] is the option [{ strict }]: absent, [false] or [true]. *)
Definition isObjectOf (predObj : list (string * Predicate))
    (strict : option bool) : Predicate :=
  if default false strict then isObjectOfStrict predObj
  else isObjectOfLoose predObj.

Definition isPrimitive (x : value) : Res bool :=
  Ok (loosely_equals_null x
      || bool_decide
           (typeof x ∈ ["string"; "number"; "bigint"; "boolean"; "symbol"])).

Definition isLiteralOf (literal : primitive) : Predicate :=
  fun x => Ok (strictEquals x literal).

(** [literals.includes(x)] compares with SameValueZero. *)
Definition isLiteralOneOf (literals : list primitive) : Predicate :=
  fun x => Ok (existsb (sameValueZero x) literals).

Definition isOneOf (preds : list Predicate) : Predicate :=
  fun x => some (fun pred _ => pred x) preds.

Definition isAllOf (preds : list Predicate) : Predicate :=
  fun x => every (fun pred _ => pred x) preds.

(** [isOptionalOf] returns a new function object that owns the property
    [optional: true]. *)
Definition isOptionalOf (pred : Fn) (st : State) : Fn * State :=
  let '(f, st) := new_function (fun x => isUndefined x ||| call pred x) st in
  define_optional f st.

End Is.
Import Is.

(** ** metadata.ts and the facet test

    [as.ts] imports three helpers whose files are not among the sources. *)

Module Metadata.

(** Modelled from the spec: [setPredicateFactoryMetadata] of metadata.ts.
    "attach(predicate, metadata) -> predicate records metadata for a
    predicate and returns the same predicate" (Metadata Store). *)
Definition setPredicateFactoryMetadata (pred : Fn)
    (m : PredicateFactoryMetadata) (st : State) : Fn * State :=
  (pred,
   {| next_addr := next_addr st;
      optional_props := optional_props st;
      metadata := <[ addr pred := m ]> (metadata st) |}).

(** Modelled from the spec: [getPredicateFactoryMetadata] of metadata.ts.
    "lookup(predicate) -> metadata | absent retrieves previously attached
    metadata; never throws" (Metadata Store). *)
Definition getPredicateFactoryMetadata (st : State) (pred : Fn)
  : option PredicateFactoryMetadata :=
  metadata st !! addr pred.

(** Modelled from the spec: [isOptional] of the is.ts that as.ts imports.
    "already carries the optional facet (detected via a dedicated facet
    check, not metadata name matching)", the facet being "a boolean
    capability flag, optional: true, attached to a predicate". *)
Definition isOptional (st : State) (pred : Fn) : bool :=
  bool_decide (addr pred ∈ optional_props st).

End Metadata.
Import Metadata.

(** ** as.ts (src/unnamed/part_000): [as.Optional] and [as.Required] *)

Module As.

Definition asOptional (pred : Fn) (st : State) : Fn * State :=
  if isOptional st pred then (pred, st)
  else
    let '(f, st) :=
      new_function
        (fun x => Ok (strictEquals x PUndefined) ||| call pred x) st in
    let '(f, st) :=
      setPredicateFactoryMetadata f
        {| name := "asOptional"; args := [pred] |} st in
    define_optional f st.

(** [const { args } = getPredicateFactoryMetadata(pred)] raises [TypeError]
    when there is no metadata; [args[0]] is [undefined] ([None]) when
    [args] is empty. *)
Definition asRequired (st : State) (pred : Fn) : Res (option Fn) :=
  if negb (isOptional st pred) then Ok (Some pred)
  else
    match getPredicateFactoryMetadata st pred with
    | None => Throw TypeError
    | Some m => Ok (head (args m))
    end.

End As.

(** ** as.ts, later revision (src/unnamed/part_001)

    This revision no longer defines the [optional] property itself and adds
    [as.Readonly]; what [isOptional] and [isReadonly] of its is.ts read is
    not among the sources, so both tests are parameters here. *)

Module AsNext.
Section Facets.

Variable isOptional : State -> Fn -> bool.
Variable isReadonly : State -> Fn -> bool.

Definition asOptional (pred : Fn) (st : State) : Fn * State :=
  if isOptional st pred then (pred, st)
  else
    let '(f, st) :=
      new_function
        (fun x => Ok (strictEquals x PUndefined) ||| call pred x) st in
    setPredicateFactoryMetadata f
      {| name := "asOptional"; args := [pred] |} st.

Definition asRequired (st : State) (pred : Fn) : Res (option Fn) :=
  if negb (isOptional st pred) then Ok (Some pred)
  else
    match getPredicateFactoryMetadata st pred with
    | None => Throw TypeError
    | Some m => Ok (head (args m))
    end.


End Facets.
End AsNext.

(** ** Notions used to state the laws *)

(** [p] returns a boolean on [x]. *)
Definition returns_at (p : Predicate) (x : value) : Prop :=
  exists b, p x = Ok b.



(** Concrete values and function objects for the examples. *)
Module Fixture.

Definition str (s : string) : value := VPrim (PString s).
Definition num (f : float) : value := VPrim (PNumber f).

(** The function object of the declaration [function isString]. *)
Definition isString_fn : Fn := (new_function isString initial).1.
Definition st0 : State := (new_function isString initial).2.

(** [as.Optional(is.String)] and [as.Optional(as.Optional(is.String))]. *)
Definition optional_string : Fn := (As.asOptional isString_fn st0).1.
Definition st1 : State := (As.asOptional isString_fn st0).2.
Definition optional_optional_string : Fn := (As.asOptional optional_string st1).1.
Definition st2 : State := (As.asOptional optional_string st1).2.

(** [is.OptionalOf(is.String)]. *)
Definition isOptionalOf_string : Fn := (isOptionalOf isString_fn st0).1.
Definition st1' : State := (isOptionalOf isString_fn st0).2.

(** A predicate that raises on every value. *)
Definition raising : Predicate := fun _ => Throw (UserError "boom").

(** A facet test for the later revision of as.ts, for the examples: a
    predicate is optional when its metadata names the factory
    [asOptional]. *)
Definition named_asOptional (st : State) (f : Fn) : bool :=
  match getPredicateFactoryMetadata st f with
  | Some m => bool_decide (name m = "asOptional")
  | None => false
  end.


(** A predicate written by hand that owns [optional: true] and was built
    by no factory: [Object.defineProperties((x) => ..., { optional: {
    value: true } })]. *)
Definition hand_written (code : Predicate) (st : State) : Fn * State :=
  let '(f, st) := new_function code st in
  define_optional f st.

End Fixture.

(** [p] implies [q]: [q] accepts every value that [p] accepts. *)
Definition implies (p q : Predicate) : Prop :=
  forall x, p x = Ok true -> q x = Ok true.

(** * Laws *)

(** ** Exceptions, short-circuit operators and loops *)

Lemma bind_Ok {A B} (m : Res A) (f : A -> Res B) (b : B) :
  bind m f = Ok b <-> exists a, m = Ok a /\ f a = Ok b.
Proof.
  destruct m as [a|e]; simpl; split.
  - intros H. exists a. auto.
  - intros (a' & [= ->] & H). exact H.
  - discriminate.
  - intros (a' & [=] & _).
Qed.

Lemma and_then_true (a b : Res bool) :
  a &&& b = Ok true <-> a = Ok true /\ b = Ok true.
Proof.
  unfold and_then. rewrite bind_Ok. split.
  - intros ([] & -> & H); [auto | discriminate].
  - intros [-> ->]. exists true. auto.
Qed.

Lemma or_else_pure (b : bool) (r : Res bool) :
  Ok b ||| r = if b then Ok true else r.
Proof. reflexivity. Qed.

Lemma every_from_true {A} (f : A -> nat -> Res bool) (l : list A) (i : nat) :
  every_from i f l = Ok true
  <-> forall j a, l !! j = Some a -> f a (i + j) = Ok true.
Proof.
  revert i. induction l as [|a l IH]; intros i; simpl.
  - split; [intros _ j a' [=] | auto].
  - rewrite bind_Ok. split.
    + intros ([] & Ha & H); [|discriminate].
      rewrite IH in H. intros [|j] a' Hj; simpl in Hj.
      * injection Hj as <-. rewrite Nat.add_0_r. exact Ha.
      * rewrite <- Nat.add_succ_comm. apply H, Hj.
    + intros H. exists true. split.
      * specialize (H 0 a eq_refl). rewrite Nat.add_0_r in H. exact H.
      * rewrite IH. intros j a' Hj. rewrite Nat.add_succ_comm. apply (H (S j)), Hj.
Qed.



Lemma for_in_all_true (keys : list string) (check : string -> Res bool) :
  for_in_all keys check = Ok true <-> Forall (fun k => check k = Ok true) keys.
Proof.
  induction keys as [|k keys IH]; simpl.
  - split; [constructor | reflexivity].
  - rewrite bind_Ok, Forall_cons. split.
    + intros ([] & Hk & H); simpl in H; [|discriminate]. split; [exact Hk | rewrite <- IH; exact H].
    + intros [Hk H]. exists true. split; [exact Hk | rewrite IH; exact H].
Qed.


(** ** Records and arrays *)

Lemma isRecord_eq (x : value) :
  isRecord x = Ok match x with VObject _ => true | _ => false end.
Proof. destruct x as [[]| | |]; reflexivity. Qed.

Lemma isRecord_true (x : value) :
  isRecord x = Ok true <-> exists props, x = VObject props.
Proof.
  split.
  - destruct x as [[]| | |]; try discriminate. eauto.
  - intros [props ->]. reflexivity.
Qed.

Lemma isUndefined_eq (x : value) :
  isUndefined x = Ok (strictEquals x PUndefined).
Proof. destruct x as [[]| | |]; reflexivity. Qed.

Lemma assoc_is_Some {A} (k : string) (l : list (string * A)) :
  k ∈ l.*1 -> is_Some (assoc k l).
Proof.
  induction l as [|[k' a] l IH]; simpl.
  - intros H. inversion H.
  - intros H. case_bool_decide; [eauto|].
    apply IH. apply elem_of_cons in H as [->|H]; [contradiction | exact H].
Qed.

Lemma assoc_elem_of {A} (k : string) (a : A) (l : list (string * A)) :
  assoc k l = Some a -> (k, a) ∈ l.
Proof.
  induction l as [|[k' a'] l IH]; simpl; [discriminate|].
  case_bool_decide as Hk.
  - intros [= ->]. subst k'. left.
  - intros H. right. apply IH, H.
Qed.

(** ** Values that are safe to read *)







Lemma inherited_undefined (k : string) :
  k ∉ Object_prototype.*1 -> inherited k = undefined.
Proof.
  intros Hk. unfold inherited.
  destruct (assoc k Object_prototype) as [v|] eqn:Hv; [|reflexivity].
  exfalso. apply Hk. apply assoc_elem_of in Hv.
  apply (list_elem_of_fmap_2 fst) in Hv. exact Hv.
Qed.





(** ** [isTupleOf] *)

Lemma every_index_Forall2 (predTup : list Predicate) (xs : list value) :
  length xs = length predTup ->
  every (fun pred i => let* v := index (VArray xs) i in pred v) predTup = Ok true
  <-> Forall2 (fun pred v => pred v = Ok true) predTup xs.
Proof.
  intros Hlen. unfold every. rewrite every_from_true.
  rewrite Forall2_same_length_lookup. split.
  - intros H. split; [symmetry; exact Hlen|]. intros i pred v Hp Hv.
    specialize (H i pred Hp). simpl in H.
    rewrite (nth_lookup_Some _ _ _ _ Hv) in H. exact H.
  - intros [_ H] j pred Hp. simpl.
    destruct (lookup_lt_is_Some_2 xs j) as [v Hv].
    { rewrite Hlen. eapply lookup_lt_Some, Hp. }
    rewrite (nth_lookup_Some _ _ _ _ Hv). eauto.
Qed.

Lemma isTupleOf_not_array (predTup : list Predicate)
    (predElse : option Predicate) (x : value) :
  Array_isArray x = false -> isTupleOf predTup predElse x = Ok false.
Proof.
  intros Hx. destruct predElse; destruct x; try discriminate; reflexivity.
Qed.

Lemma isTupleOf_exact_true (predTup : list Predicate) (x : value) :
  isTupleOf predTup None x = Ok true
  <-> exists xs, x = VArray xs
      /\ length xs = length predTup
      /\ Forall2 (fun pred v => pred v = Ok true) predTup xs.
Proof.
  split.
  - destruct x as [p|xs|props|id]; try discriminate.
    cbn. case_bool_decide as Hlen; [discriminate|]. cbn. intros H.
    exists xs. split; [reflexivity|]. split; [exact Hlen|].
    apply every_index_Forall2; assumption.
  - intros (xs & -> & Hlen & H). cbn.
    rewrite bool_decide_eq_false_2 by (intros Hne; apply Hne, Hlen). cbn.
    apply every_index_Forall2; assumption.
Qed.

(** C4. [isTupleOf(predTup)] accepts exactly the arrays of [predTup.length]
    elements whose elements are accepted position by position; an array of
    another length, or a value that is not an array, is rejected whatever
    the predicates would do (none of them is called).  With a rest
    predicate, [isTupleOf(predTup, predElse)] accepts exactly the arrays
    of at least [predTup.length] elements whose first [predTup.length]
    elements are accepted position by position and whose remaining
    elements, as one array, are accepted by [predElse]; a shorter array is
    rejected without any call. *)
Theorem isTupleOf_spec (predTup : list Predicate) (x : value) :
  (isTupleOf predTup None x = Ok true
   <-> exists xs, x = VArray xs
       /\ length xs = length predTup
       /\ Forall2 (fun pred v => pred v = Ok true) predTup xs)
  /\ (forall xs, x = VArray xs -> length xs ≠ length predTup ->
      isTupleOf predTup None x = Ok false)
  /\ (forall predElse,
      isTupleOf predTup (Some predElse) x = Ok true
      <-> exists xs, x = VArray xs
          /\ length predTup <= length xs
          /\ Forall2 (fun pred v => pred v = Ok true)
               predTup (take (length predTup) xs)
          /\ predElse (VArray (drop (length predTup) xs)) = Ok true)
  /\ (forall predElse xs, x = VArray xs -> length xs < length predTup ->
      isTupleOf predTup (Some predElse) x = Ok false)
  /\ (forall predElse, Array_isArray x = false ->
      isTupleOf predTup predElse x = Ok false).
Proof.
  split; [|split; [|split; [|split]]].
  - apply isTupleOf_exact_true.
  - intros xs -> Hlen. cbn. rewrite bool_decide_eq_true_2 by exact Hlen.
    reflexivity.
  - intros predElse. split.
    + destruct x as [p|xs|props|id]; try discriminate.
      cbn. case_bool_decide as Hlen; [discriminate|]. cbn.
      apply Nat.nlt_ge in Hlen. rewrite and_then_true. intros [H Hrest].
      exists xs. split; [reflexivity|]. split; [exact Hlen|].
      split; [|exact Hrest].
      apply every_index_Forall2; [|exact H]. apply length_take_le, Hlen.
    + intros (xs & -> & Hlen & H & Hrest). cbn.
      rewrite bool_decide_eq_false_2 by lia. cbn.
      rewrite and_then_true. split; [|exact Hrest].
      apply every_index_Forall2; [|exact H]. apply length_take_le, Hlen.
  - intros predElse xs -> Hlen. cbn.
    rewrite bool_decide_eq_true_2 by exact Hlen. reflexivity.
  - intros predElse. apply isTupleOf_not_array.
Qed.

(** The scenarios the specification lists for tuples. *)
Example tupleOf_scenarios :
  isTupleOf [isNumber; isString; isBoolean] None
    (VArray [Fixture.num 0; Fixture.str "a"; VPrim (PBoolean true)]) = Ok true
  /\ isTupleOf [isNumber; isString; isBoolean] None
       (VArray [Fixture.num 0; Fixture.str "a"]) = Ok false
  /\ isUniformTupleOf 3 (Some isNumber)
       (VArray [Fixture.num 1; Fixture.num 2; Fixture.num 3]) = Ok true
  /\ isUniformTupleOf 3 (Some isNumber)
       (VArray [Fixture.num 1; Fixture.num 2; Fixture.str "x"]) = Ok false.
Proof. repeat split; vm_compute; reflexivity. Qed.

(** A mismatch of length is decided before the first predicate is called:
    a predicate that raises on every value is never reached. *)
Example tupleOf_length_first :
  isTupleOf [Fixture.raising; Fixture.raising] None
    (VArray [Fixture.num 0]) = Ok false
  /\ isTupleOf [Fixture.raising; Fixture.raising] None
       (VArray [Fixture.num 0; Fixture.num 1]) = Throw (UserError "boom").
Proof. split; vm_compute; reflexivity. Qed.

(** ** [isArrayOf], [isUniformTupleOf] and [isRecordOf] *)

(** X1. [isArrayOf(pred)] accepts exactly the arrays all of whose elements
    [pred] accepts. *)
Theorem isArrayOf_spec (pred : Predicate) (x : value) :
  isArrayOf pred x = Ok true
  <-> exists xs, x = VArray xs /\ Forall (fun v => pred v = Ok true) xs.
Proof.
  unfold isArrayOf. split.
  - destruct x as [p|xs|props|id]; try discriminate. cbn.
    unfold every. rewrite every_from_true. intros H.
    exists xs. split; [reflexivity|]. apply Forall_lookup. intros i v Hv.
    apply (H i v Hv).
  - intros (xs & -> & H). cbn. unfold every. rewrite every_from_true.
    intros j v Hv. rewrite Forall_lookup in H. apply (H j v Hv).
Qed.

(** X2. [isUniformTupleOf(n, pred)] accepts exactly the arrays of [n]
    elements all of which [pred] accepts; without [pred] every element is
    accepted, as by [isAny]. *)
Theorem isUniformTupleOf_spec (n : nat) (pred : option Predicate) (x : value) :
  (isUniformTupleOf n pred x = Ok true
   <-> exists xs, x = VArray xs
       /\ length xs = n
       /\ Forall (fun v => default isAny pred v = Ok true) xs)
  /\ (isUniformTupleOf n None x = Ok true
      <-> exists xs, x = VArray xs /\ length xs = n).
Proof.
  assert (Hgen : forall p : Predicate,
    isTupleOf (replicate n p) None x = Ok true
    <-> exists xs, x = VArray xs /\ length xs = n
        /\ Forall (fun v => p v = Ok true) xs).
  { intros p. rewrite isTupleOf_exact_true. split.
    - intros (xs & -> & Hlen & H). rewrite length_replicate in Hlen.
      exists xs. split; [reflexivity|]. split; [exact Hlen|].
      apply Forall_lookup. intros i v Hv.
      rewrite Forall2_same_length_lookup in H. destruct H as [_ H].
      apply (H i p v); [|exact Hv]. apply lookup_replicate_2.
      rewrite <- Hlen. eapply lookup_lt_Some, Hv.
    - intros (xs & -> & Hlen & H). exists xs. split; [reflexivity|].
      rewrite length_replicate. split; [exact Hlen|].
      apply Forall2_same_length_lookup. rewrite length_replicate.
      split; [symmetry; exact Hlen|]. intros i p' v Hp Hv.
      apply lookup_replicate in Hp as [-> _].
      rewrite Forall_lookup in H. apply (H i v Hv). }
  split.
  - apply Hgen.
  - unfold isUniformTupleOf. cbn [default from_option]. rewrite Hgen. split.
    + intros (xs & -> & Hlen & _). eauto.
    + intros (xs & -> & Hlen). exists xs. split; [reflexivity|].
      split; [exact Hlen|]. apply Forall_forall. reflexivity.
Qed.

(** X3. [isRecordOf(pred)] accepts exactly the records every property of
    which [pred] accepts, whatever the keys are. *)
Theorem isRecordOf_spec (pred : Predicate) (x : value) :
  isRecordOf pred x = Ok true
  <-> isRecord x = Ok true
      /\ forall k, k ∈ for_in_keys x ->
           exists v, get x k = Ok v /\ pred v = Ok true.
Proof.
  unfold isRecordOf. rewrite isRecord_eq.
  destruct x as [p|xs|props|id]; cbn;
    try (split; [discriminate | intros [[=] _]]).
  rewrite for_in_all_true, Forall_forall. split.
  - intros H. split; [reflexivity|]. intros k Hk.
    apply bind_Ok, H, Hk.
  - intros [_ H] k Hk. apply bind_Ok, H, Hk.
Qed.

(** ** [isObjectOf] *)


Lemma isObjectOfLoose_true (predObj : list (string * Predicate)) (x : value) :
  isObjectOfLoose predObj x = Ok true
  <-> isRecord x = Ok true
      /\ forall k pred, assoc k predObj = Some pred ->
           exists v, get x k = Ok v /\ pred v = Ok true.
Proof.
  unfold isObjectOfLoose. rewrite isRecord_eq. split.
  - destruct x as [[]| |props|]; try discriminate. cbn.
    rewrite for_in_all_true, Forall_forall. intros H.
    split; [reflexivity|]. intros k pred Hk.
    specialize (H k). rewrite Hk in H. apply bind_Ok. apply H.
    apply assoc_elem_of in Hk. apply (list_elem_of_fmap_2 fst) in Hk. exact Hk.
  - intros [Hx H]. destruct x as [[]| |props|]; try discriminate. cbn.
    rewrite for_in_all_true, Forall_forall. intros k Hk.
    destruct (assoc_is_Some k predObj Hk) as [pred Hp]. rewrite Hp.
    apply bind_Ok. apply H, Hp.
Qed.

Lemma strict_key_check (keys : gset string) (ks : list string) :
  bool_decide (length ks ≤ size keys)
  && forallb (fun k => bool_decide (k ∈ keys)) ks = true
  <-> length ks ≤ size keys /\ forall k, k ∈ ks -> k ∈ keys.
Proof.
  rewrite andb_true_iff, bool_decide_eq_true, forallb_forall.
  split; intros [Hlen H]; (split; [exact Hlen|]); intros k Hk.
  - apply list_elem_of_In in Hk. apply H in Hk.
    apply bool_decide_eq_true in Hk. exact Hk.
  - apply bool_decide_eq_true, H, list_elem_of_In, Hk.
Qed.

Lemma isObjectOfStrict_true (predObj : list (string * Predicate)) (x : value) :
  isObjectOfStrict predObj x = Ok true
  <-> isRecord x = Ok true
      /\ (forall k pred, assoc k predObj = Some pred ->
            exists v, get x k = Ok v /\ pred v = Ok true)
      /\ exists ks, Object_keys x = Ok ks
          /\ length ks ≤ size (list_to_set predObj.*1 : gset string)
          /\ (forall k, k ∈ ks -> k ∈ predObj.*1).
Proof.
  unfold isObjectOfStrict. rewrite bind_Ok. split.
  - intros ([] & Hloose & H); [|discriminate].
    apply isObjectOfLoose_true in Hloose as [Hx Hp].
    split; [exact Hx|]. split; [exact Hp|].
    cbn in H. apply bind_Ok in H as (ks & Hks & H). injection H as H.
    apply strict_key_check in H as [Hlen Hsub].
    exists ks. repeat split; try assumption.
    intros k Hk. apply Hsub in Hk. apply elem_of_list_to_set in Hk. exact Hk.
  - intros (Hx & Hp & ks & Hks & Hlen & Hsub). exists true. split.
    + apply isObjectOfLoose_true. split; assumption.
    + cbn. rewrite Hks. cbn. f_equal. apply strict_key_check.
      split; [exact Hlen|].
      intros k Hk. apply elem_of_list_to_set, Hsub, Hk.
Qed.

Lemma length_le_size_keys (ks l : list string) :
  NoDup ks -> (forall k, k ∈ ks -> k ∈ l) ->
  length ks ≤ size (list_to_set l : gset string).
Proof.
  intros Hnd Hsub.
  rewrite <- (size_list_to_set (C:=gset string) ks Hnd).
  apply subseteq_size. intros k. rewrite !elem_of_list_to_set. apply Hsub.
Qed.



(** The key count the strict check compares with is the number of keys of
    the descriptor. *)
Lemma descriptor_key_count (predObj : list (string * Predicate)) :
  NoDup predObj.*1 ->
  size (list_to_set predObj.*1 : gset string) = length predObj.
Proof.
  intros Hnd. rewrite (size_list_to_set (C:=gset string) _ Hnd).
  apply length_fmap.
Qed.






(** The scenarios the specification lists for objects. *)
Example objectOf_scenarios :
  let foo := [("foo", call Fixture.optional_string)] in
  isObjectOf foo None (VObject []) = Ok true
  /\ isObjectOf foo None (VObject [("foo", Ok undefined)]) = Ok true
  /\ isObjectOf foo None (VObject [("foo", Ok (Fixture.str "a"))]) = Ok true
  /\ isObjectOf foo None (VObject [("foo", Ok (Fixture.num 0))]) = Ok false
  /\ isObjectOf [("a", isNumber)] (Some true)
       (VObject [("a", Ok (Fixture.num 1)); ("b", Ok (Fixture.num 2))])
     = Ok false
  /\ isObjectOf [("a", isNumber)] (Some true)
       (VObject [("a", Ok (Fixture.num 1))]) = Ok true
  /\ isObjectOf [("a", isNumber); ("b", isString)] None (VObject [])
     = Ok false.
Proof. repeat split; vm_compute; reflexivity. Qed.

Lemma for_in_all_ext (keys : list string) (f g : string -> Res bool) :
  (forall k, k ∈ keys -> f k = g k) ->
  for_in_all keys f = for_in_all keys g.
Proof.
  induction keys as [|k keys IH]; intros H; simpl.
  - reflexivity.
  - rewrite (H k) by left. rewrite IH; [reflexivity|].
    intros k' Hk'. apply H. right. exact Hk'.
Qed.

Lemma assoc_app_other {A} (k k' : string) (a : A) (l : list (string * A)) :
  k' ≠ k -> assoc k' (l ++ [(k, a)]) = assoc k' l.
Proof.
  intros Hne. induction l as [|[k0 a0] l IH]; simpl.
  - rewrite bool_decide_eq_false_2; [reflexivity|]. intros ->. apply Hne.
    reflexivity.
  - rewrite IH. reflexivity.
Qed.

(** X4. Without [strict] (or with [strict: false]) [isObjectOf] accepts
    exactly the records whose properties under the keys of the descriptor
    are accepted by its predicates.  The empty record is accepted exactly
    when every predicate of the descriptor accepts what [{}] reads under
    its key, the inherited value; when no key of the descriptor names a
    property of [Object.prototype], that is exactly when every predicate
    accepts [undefined].  A property under a key that the descriptor lacks
    changes nothing. *)
Theorem isObjectOf_loose_spec (predObj : list (string * Predicate))
    (strict : option bool) (x : value) :
  default false strict = false ->
  (isObjectOf predObj strict x = Ok true
   <-> isRecord x = Ok true
       /\ forall k pred, assoc k predObj = Some pred ->
            exists v, get x k = Ok v /\ pred v = Ok true)
  /\ (isObjectOf predObj strict (VObject []) = Ok true
      <-> forall k pred, assoc k predObj = Some pred ->
            pred (inherited k) = Ok true)
  /\ ((forall k, k ∈ predObj.*1 -> k ∉ Object_prototype.*1) ->
      (isObjectOf predObj strict (VObject []) = Ok true
       <-> forall k pred, assoc k predObj = Some pred ->
             pred undefined = Ok true))
  /\ (forall props k r, k ∉ predObj.*1 ->
      isObjectOf predObj strict (VObject (props ++ [(k, r)]))
      = isObjectOf predObj strict (VObject props)).
Proof.
  intros Hstrict. unfold isObjectOf. rewrite Hstrict.
  assert (Hempty : isObjectOfLoose predObj (VObject []) = Ok true
    <-> forall k pred, assoc k predObj = Some pred ->
          pred (inherited k) = Ok true).
  { rewrite isObjectOfLoose_true. split.
    - intros [_ H] k pred Hk. destruct (H k pred Hk) as (v & [= <-] & Hv).
      exact Hv.
    - intros H. split; [reflexivity|]. intros k pred Hk.
      exists (inherited k). split; [reflexivity | apply (H k pred Hk)]. }
  split; [|split; [exact Hempty|split]].
  - apply isObjectOfLoose_true.
  - intros Hkeys. rewrite Hempty.
    assert (Hundef : forall k pred, assoc k predObj = Some pred ->
              inherited k = undefined).
    { intros k pred Hk. apply inherited_undefined, Hkeys.
      apply assoc_elem_of in Hk. apply (list_elem_of_fmap_2 fst) in Hk.
      exact Hk. }
    split; intros H k pred Hk; specialize (H k pred Hk);
      rewrite (Hundef k pred Hk) in *; exact H.
  - intros props k r Hk. unfold isObjectOfLoose. rewrite !isRecord_eq. cbn.
    apply for_in_all_ext. intros k' Hk'.
    rewrite assoc_app_other; [reflexivity|]. intros ->. contradiction.
Qed.

(** [isObjectOf({ a: isNumber })] accepts [{ a: 1, b: 2 }]. *)
Lemma isObjectOf_loose_extra_key :
  isObjectOf [("a", isNumber)] None
    (VObject [("a", Ok (Fixture.num 1)); ("b", Ok (Fixture.num 2))]) = Ok true.
Proof.
  apply (isObjectOf_loose_spec [("a", isNumber)] None
           (VObject [("a", Ok (Fixture.num 1)); ("b", Ok (Fixture.num 2))])).
  - reflexivity.
  - split; [reflexivity|]. intros k pred H. simpl in H.
    destruct (bool_decide ("a" = k)) eqn:Hk; [|discriminate].
    injection H as <-. apply bool_decide_eq_true in Hk as <-.
    exists (Fixture.num 1). split; reflexivity.
Defined.

(** ** [isLiteralOf] and [isLiteralOneOf] *)

(** Away from numbers, strict equality with a primitive is equality. *)
Lemma strictEquals_non_number (x : value) (lit : primitive) :
  (forall f, lit ≠ PNumber f) ->
  strictEquals x lit = true <-> x = VPrim lit.
Proof.
  intros Hlit. split.
  - destruct x as [[]| | |], lit; simpl; try discriminate;
      try (intros H; apply bool_decide_eq_true in H; congruence);
      try reflexivity.
    exfalso. eapply Hlit. reflexivity.
  - intros ->. destruct lit; simpl; try reflexivity;
      try (apply bool_decide_eq_true; reflexivity).
    exfalso. eapply Hlit. reflexivity.
Qed.

(** SameValueZero is strict equality, extended by [NaN] with [NaN]. *)
Lemma sameValueZero_eq (x : value) (lit : primitive) :
  sameValueZero x lit
  = strictEquals x lit || (is_NaN_value x && is_NaN lit).
Proof.
  destruct x as [[]| | |], lit; simpl;
    rewrite ?orb_false_r, ?andb_false_r; reflexivity.
Qed.

(** C6 fails as stated: [isLiteralOneOf([NaN])] accepts [NaN], which is
    strictly identical to no member of the list. *)
Lemma isLiteralOneOf_accepts_NaN :
  isLiteralOneOf [PNumber nan] (VPrim (PNumber nan)) = Ok true
  /\ Forall (fun lit => strictEquals (VPrim (PNumber nan)) lit = false)
       [PNumber nan]
  /\ isLiteralOf (PNumber nan) (VPrim (PNumber nan)) = Ok false.
Proof.
  split; [|split].
  - vm_compute. reflexivity.
  - constructor; [vm_compute; reflexivity | constructor].
  - vm_compute. reflexivity.
Qed.

(** C6 (amended). [isLiteralOf(literal)] accepts [x] exactly when
    [x === literal].  [isLiteralOneOf(literals)] accepts [x] exactly when
    some member of [literals] is strictly identical to [x], or [x] is
    [NaN] and [NaN] is a member: [includes] compares with SameValueZero.
    Neither predicate raises. *)
Theorem isLiteral_spec (literal : primitive) (literals : list primitive)
    (x : value) :
  (isLiteralOf literal x = Ok true <-> strictEquals x literal = true)
  /\ (isLiteralOneOf literals x = Ok true
      <-> exists lit, lit ∈ literals
          /\ (strictEquals x lit = true
              \/ (is_NaN_value x = true /\ is_NaN lit = true)))
  /\ returns_at (isLiteralOf literal) x
  /\ returns_at (isLiteralOneOf literals) x.
Proof.
  unfold isLiteralOf, isLiteralOneOf, returns_at. repeat split; eauto.
  - intros [= H]. exact H.
  - intros H. rewrite H. reflexivity.
  - intros [= H]. apply existsb_exists in H as (lit & Hin & H).
    exists lit. split; [apply list_elem_of_In, Hin|].
    rewrite sameValueZero_eq in H. apply orb_true_iff in H as [H|H].
    + left. exact H.
    + right. apply andb_true_iff in H. exact H.
  - intros (lit & Hin & H). f_equal. apply existsb_exists.
    exists lit. split; [apply list_elem_of_In, Hin|].
    rewrite sameValueZero_eq. apply orb_true_iff.
    destruct H as [H|[H1 H2]]; [left; exact H | right].
    rewrite H1, H2. reflexivity.
Qed.

(** ** [isOneOf] and [isAllOf] *)

Lemma some_from_any_index {A} (f : A -> Res bool) (l : list A) (i j : nat) :
  some_from i (fun a _ => f a) l = some_from j (fun a _ => f a) l.
Proof.
  revert i j. induction l as [|a l IH]; intros i j; simpl.
  - reflexivity.
  - destruct (f a) as [[]|]; simpl; try reflexivity. apply IH.
Qed.

Lemma every_from_any_index {A} (f : A -> Res bool) (l : list A) (i j : nat) :
  every_from i (fun a _ => f a) l = every_from j (fun a _ => f a) l.
Proof.
  revert i j. induction l as [|a l IH]; intros i j; simpl.
  - reflexivity.
  - destruct (f a) as [[]|]; simpl; try reflexivity. apply IH.
Qed.

Lemma isOneOf_cons (p : Predicate) (preds : list Predicate) (x : value) :
  isOneOf (p :: preds) x
  = let* b := p x in if b then Ok true else isOneOf preds x.
Proof.
  unfold isOneOf, some. simpl. destruct (p x) as [[]|]; simpl; try reflexivity.
  apply (some_from_any_index (fun pred : Predicate => pred x)).
Qed.

Lemma isAllOf_cons (p : Predicate) (preds : list Predicate) (x : value) :
  isAllOf (p :: preds) x
  = let* b := p x in if b then isAllOf preds x else Ok false.
Proof.
  unfold isAllOf, every. simpl. destruct (p x) as [[]|]; simpl; try reflexivity.
  apply (every_from_any_index (fun pred : Predicate => pred x)).
Qed.

Lemma isOneOf_decided (preds : list Predicate) (x : value) :
  Forall (fun p => returns_at p x) preds ->
  (isOneOf preds x = Ok true /\ Exists (fun p => p x = Ok true) preds)
  \/ (isOneOf preds x = Ok false /\ Forall (fun p => p x = Ok false) preds).
Proof.
  induction 1 as [|p preds [b Hp] _ IH].
  - right. split; [reflexivity | constructor].
  - rewrite isOneOf_cons, Hp. simpl. destruct b.
    + left. split; [reflexivity | left; exact Hp].
    + destruct IH as [[-> IH]|[-> IH]].
      * left. split; [reflexivity | right; exact IH].
      * right. split; [reflexivity | constructor; assumption].
Qed.

Lemma isAllOf_decided (preds : list Predicate) (x : value) :
  Forall (fun p => returns_at p x) preds ->
  (isAllOf preds x = Ok true /\ Forall (fun p => p x = Ok true) preds)
  \/ (isAllOf preds x = Ok false /\ Exists (fun p => p x = Ok false) preds).
Proof.
  induction 1 as [|p preds [b Hp] _ IH].
  - left. split; [reflexivity | constructor].
  - rewrite isAllOf_cons, Hp. simpl. destruct b.
    + destruct IH as [[-> IH]|[-> IH]].
      * left. split; [reflexivity | constructor; assumption].
      * right. split; [reflexivity | right; exact IH].
    + right. split; [reflexivity | left; exact Hp].
Qed.

(** A predicate does not both accept and reject a value. *)
Lemma not_accepted_and_rejected (preds : list Predicate) (x : value) :
  Exists (fun p => p x = Ok true) preds ->
  Forall (fun p => p x = Ok false) preds -> False.
Proof.
  rewrite Exists_exists, Forall_forall. intros (p & Hin & Ht) Hf.
  specialize (Hf p Hin). congruence.
Qed.

Lemma not_rejected_and_accepted (preds : list Predicate) (x : value) :
  Exists (fun p => p x = Ok false) preds ->
  Forall (fun p => p x = Ok true) preds -> False.
Proof.
  rewrite Exists_exists, Forall_forall. intros (p & Hin & Hf) Ht.
  specialize (Ht p Hin). congruence.
Qed.

(** C7. For predicates that return a boolean on [x], [isOneOf(preds)]
    accepts [x] exactly when some predicate of the list accepts it and
    rejects it exactly when all reject it; [isAllOf(preds)] accepts [x]
    exactly when every predicate accepts it and rejects it exactly when
    some predicate rejects it; and reordering the list changes neither
    result. *)
Theorem isOneOf_isAllOf_spec (preds : list Predicate) (x : value) :
  Forall (fun p => returns_at p x) preds ->
  (isOneOf preds x = Ok true <-> Exists (fun p => p x = Ok true) preds)
  /\ (isOneOf preds x = Ok false <-> Forall (fun p => p x = Ok false) preds)
  /\ (isAllOf preds x = Ok true <-> Forall (fun p => p x = Ok true) preds)
  /\ (isAllOf preds x = Ok false <-> Exists (fun p => p x = Ok false) preds)
  /\ (forall preds', preds ≡ₚ preds' ->
      isOneOf preds' x = isOneOf preds x
      /\ isAllOf preds' x = isAllOf preds x).
Proof.
  intros Hret.
  assert (Hone : forall l, Forall (fun p => returns_at p x) l ->
    (isOneOf l x = Ok true <-> Exists (fun p => p x = Ok true) l)
    /\ (isOneOf l x = Ok false <-> Forall (fun p => p x = Ok false) l)).
  { intros l Hl. destruct (isOneOf_decided l x Hl) as [[-> H]|[-> H]].
    - split; split; try discriminate; auto.
      intros Hf. exfalso. eapply not_accepted_and_rejected; eassumption.
    - split; split; try discriminate; auto.
      intros He. exfalso. eapply not_accepted_and_rejected; eassumption. }
  assert (Hall : forall l, Forall (fun p => returns_at p x) l ->
    (isAllOf l x = Ok true <-> Forall (fun p => p x = Ok true) l)
    /\ (isAllOf l x = Ok false <-> Exists (fun p => p x = Ok false) l)).
  { intros l Hl. destruct (isAllOf_decided l x Hl) as [[-> H]|[-> H]].
    - split; split; try discriminate; auto.
      intros He. exfalso. eapply not_rejected_and_accepted; eassumption.
    - split; split; try discriminate; auto.
      intros Hf. exfalso. eapply not_rejected_and_accepted; eassumption. }
  destruct (Hone preds Hret) as [Ho1 Ho2].
  destruct (Hall preds Hret) as [Ha1 Ha2].
  repeat (split; [assumption|]).
  intros preds' Hperm.
  assert (Hret' : Forall (fun p => returns_at p x) preds')
    by (rewrite <- Hperm; exact Hret).
  destruct (Hone preds' Hret') as [Ho1' Ho2'].
  destruct (Hall preds' Hret') as [Ha1' Ha2'].
  split.
  - destruct (isOneOf_decided preds x Hret) as [[-> H]|[-> H]].
    + apply Ho1'. rewrite <- Hperm. exact H.
    + apply Ho2'. rewrite <- Hperm. exact H.
  - destruct (isAllOf_decided preds x Hret) as [[-> H]|[-> H]].
    + apply Ha1'. rewrite <- Hperm. exact H.
    + apply Ha2'. rewrite <- Hperm. exact H.
Qed.

(** [isOneOf([isNumber, isString])] and [isAllOf] of the same list at the
    string ["a"], in both orders. *)
Lemma isOneOf_isAllOf_at_string :
  isOneOf [isNumber; isString] (Fixture.str "a") = Ok true
  /\ isAllOf [isNumber; isString] (Fixture.str "a") = Ok false
  /\ isOneOf [isString; isNumber] (Fixture.str "a")
     = isOneOf [isNumber; isString] (Fixture.str "a")
  /\ isAllOf [isString; isNumber] (Fixture.str "a")
     = isAllOf [isNumber; isString] (Fixture.str "a").
Proof.
  assert (Hret : Forall (fun p => returns_at p (Fixture.str "a"))
                   [isNumber; isString]).
  { repeat constructor; eexists; reflexivity. }
  pose proof (isOneOf_isAllOf_spec [isNumber; isString] (Fixture.str "a") Hret)
    as (Hone & _ & _ & Hall & Hperm).
  split; [|split].
  - apply Hone. right. left. reflexivity.
  - apply Hall. left. reflexivity.
  - apply Hperm. apply Permutation_swap.
Defined.

(** Which predicates are called does depend on the order: a predicate that
    raises is reached in one order and not in the other. *)
Example isOneOf_evaluation_order :
  isOneOf [isString; Fixture.raising] (Fixture.str "a") = Ok true
  /\ isOneOf [Fixture.raising; isString] (Fixture.str "a")
     = Throw (UserError "boom").
Proof. split; vm_compute; reflexivity. Qed.

(** ** No combinator raises on its own *)








Lemma asOptional_call (pred : Fn) (st : State) :
  call (As.asOptional pred st).1
  = if isOptional st pred then call pred
    else fun x => Ok (strictEquals x PUndefined) ||| call pred x.
Proof. unfold As.asOptional. destruct (isOptional st pred); reflexivity. Qed.




(** ** The optional modifier *)

(** What [asOptional] does to a predicate that does not carry the facet. *)
Lemma asOptional_fresh (pred : Fn) (st : State) :
  isOptional st pred = false ->
  let '(q, st1) := As.asOptional pred st in
  addr q = next_addr st
  /\ call q = (fun x => Ok (strictEquals x PUndefined) ||| call pred x)
  /\ next_addr st1 = S (next_addr st)
  /\ isOptional st1 q = true
  /\ getPredicateFactoryMetadata st1 q
     = Some {| name := "asOptional"; args := [pred] |}.
Proof.
  intros Hopt. unfold As.asOptional. rewrite Hopt. cbn.
  repeat split.
  - apply bool_decide_eq_true. set_solver.
  - unfold getPredicateFactoryMetadata. cbn. apply lookup_insert_eq.
Qed.

(** The later revision, whatever its facet test is: an argument that
    passes the test is returned itself in an unchanged state, and wrapping
    twice accepts the same values as wrapping once. *)
Lemma asOptional_next_idempotent (isOptional : State -> Fn -> bool)
    (pred : Fn) (st : State) :
  (isOptional st pred = true ->
   AsNext.asOptional isOptional pred st = (pred, st))
  /\ (let '(q, st1) := AsNext.asOptional isOptional pred st in
      (isOptional st1 q = true ->
       AsNext.asOptional isOptional q st1 = (q, st1))
      /\ forall x, call (AsNext.asOptional isOptional q st1).1 x = call q x).
Proof.
  assert (Hguard : forall p s,
    isOptional s p = true -> AsNext.asOptional isOptional p s = (p, s)).
  { intros p s H. unfold AsNext.asOptional. rewrite H. reflexivity. }
  split; [apply Hguard|].
  destruct (AsNext.asOptional isOptional pred st) as [q st1] eqn:Hq.
  split; [apply Hguard|]. intros x.
  destruct (isOptional st1 q) eqn:Hopt1.
  - rewrite (Hguard _ _ Hopt1). reflexivity.
  - unfold AsNext.asOptional at 1. rewrite Hopt1. cbn.
    unfold AsNext.asOptional in Hq. destruct (isOptional st pred) eqn:Hopt.
    + injection Hq as <- <-. congruence.
    + injection Hq as <- <-. cbn.
      destruct (strictEquals x PUndefined); reflexivity.
Qed.

(** C1. [asOptional] returns its argument itself, in an unchanged state,
    when the argument carries the optional facet; and the result of
    [asOptional] always carries it, so that [asOptional(asOptional(p))] is
    the object [asOptional(p)], nothing is allocated or attached by the
    second call, and both behave alike on every value.  The later revision
    of [asOptional] has the same guard, and with any facet test its double
    application accepts the same values as its single application. *)
Theorem asOptional_idempotent (pred : Fn) (st : State) :
  (isOptional st pred = true -> As.asOptional pred st = (pred, st))
  /\ (let '(q, st1) := As.asOptional pred st in
      isOptional st1 q = true
      /\ As.asOptional q st1 = (q, st1)
      /\ forall x, call (As.asOptional q st1).1 x = call q x)
  /\ (forall isOptional' : State -> Fn -> bool,
      (isOptional' st pred = true ->
       AsNext.asOptional isOptional' pred st = (pred, st))
      /\ (let '(q, st1) := AsNext.asOptional isOptional' pred st in
          (isOptional' st1 q = true ->
           AsNext.asOptional isOptional' q st1 = (q, st1))
          /\ forall x,
               call (AsNext.asOptional isOptional' q st1).1 x = call q x)).
Proof.
  assert (Hguard : forall p s,
    isOptional s p = true -> As.asOptional p s = (p, s)).
  { intros p s H. unfold As.asOptional. rewrite H. reflexivity. }
  split; [apply Hguard|]. split; [|intros f; apply asOptional_next_idempotent].
  destruct (isOptional st pred) eqn:Hopt.
  - rewrite (Hguard _ _ Hopt). rewrite (Hguard _ _ Hopt).
    split; [exact Hopt|]. split; reflexivity.
  - pose proof (asOptional_fresh pred st Hopt) as H.
    destruct (As.asOptional pred st) as [q st1].
    destruct H as (_ & _ & _ & Hq & _).
    rewrite (Hguard _ _ Hq). split; [exact Hq|]. split; reflexivity.
Qed.

(** C5. [asRequired] returns its argument itself when the argument does
    not carry the optional facet; so does the later revision, whatever its
    facet test is. *)
Theorem asRequired_not_optional (pred : Fn) (st : State) :
  (isOptional st pred = false -> As.asRequired st pred = Ok (Some pred))
  /\ (forall isOptional' : State -> Fn -> bool,
      isOptional' st pred = false ->
      AsNext.asRequired isOptional' st pred = Ok (Some pred)).
Proof.
  split.
  - intros H. unfold As.asRequired. rewrite H. reflexivity.
  - intros f H. unfold AsNext.asRequired. rewrite H. reflexivity.
Qed.

(** [as.Required(is.String)] is [is.String]. *)
Lemma asRequired_isString :
  As.asRequired Fixture.st0 Fixture.isString_fn = Ok (Some Fixture.isString_fn).
Proof.
  apply (proj1 (asRequired_not_optional Fixture.isString_fn Fixture.st0)).
  vm_compute. reflexivity.
Defined.

(** C2 fails as stated: for [p = as.Optional(is.String)], which carries
    the facet, [as.Required(as.Optional(p))] is [is.String], another
    object than [p], and it rejects [undefined], which [p] accepts. *)
Lemma asRequired_asOptional_of_optional :
  As.asRequired Fixture.st2 Fixture.optional_optional_string
    = Ok (Some Fixture.isString_fn)
  /\ addr Fixture.isString_fn ≠ addr Fixture.optional_string
  /\ call Fixture.isString_fn undefined = Ok false
  /\ call Fixture.optional_string undefined = Ok true.
Proof.
  split; [|split; [|split]].
  - vm_compute. reflexivity.
  - vm_compute. discriminate.
  - vm_compute. reflexivity.
  - vm_compute. reflexivity.
Qed.

(** C2 (amended). For a predicate [p] that does not carry the optional
    facet, [asRequired(asOptional(p))] is [p] itself: [asRequired] returns
    [args[0]] of the metadata that [asOptional] attached.  For a predicate
    that carries the facet, [asOptional(p)] is [p], so the result is
    [asRequired(p)]. *)
Theorem asRequired_asOptional (pred : Fn) (st : State) :
  (isOptional st pred = false ->
   let '(q, st1) := As.asOptional pred st in
   As.asRequired st1 q = Ok (Some pred))
  /\ (isOptional st pred = true ->
      let '(q, st1) := As.asOptional pred st in
      As.asRequired st1 q = As.asRequired st pred).
Proof.
  split; intros Hopt.
  - pose proof (asOptional_fresh pred st Hopt) as H.
    destruct (As.asOptional pred st) as [q st1].
    destruct H as (_ & _ & _ & Hq & Hm).
    unfold As.asRequired. rewrite Hq, Hm. reflexivity.
  - unfold As.asOptional. rewrite Hopt. reflexivity.
Qed.

(** [as.Required(as.Optional(is.String))] is [is.String]. *)
Lemma asRequired_asOptional_isString :
  As.asRequired Fixture.st1 Fixture.optional_string
  = Ok (Some Fixture.isString_fn).
Proof.
  apply (proj1 (asRequired_asOptional Fixture.isString_fn Fixture.st0)).
  vm_compute. reflexivity.
Defined.

(** The cases of the test file of as.ts: [as.Optional] and [as.Required]
    inside [is.ObjectOf] and [is.TupleOf]. *)
Example as_test_scenarios :
  let optional := call Fixture.optional_string in
  let required :=
    match As.asRequired Fixture.st1 Fixture.optional_string with
    | Ok (Some f) => call f
    | _ => Fixture.raising
    end in
  isObjectOf [("foo", optional)] None (VObject []) = Ok true
  /\ isObjectOf [("foo", optional)] None (VObject [("foo", Ok undefined)])
     = Ok true
  /\ isObjectOf [("foo", optional)] None
       (VObject [("foo", Ok (Fixture.str "string"))]) = Ok true
  /\ isObjectOf [("foo", optional)] None
       (VObject [("foo", Ok (Fixture.num 0))]) = Ok false
  /\ isTupleOf [optional] None (VArray []) = Ok false
  /\ isTupleOf [optional] None (VArray [undefined]) = Ok true
  /\ isTupleOf [optional] None (VArray [Fixture.str "string"]) = Ok true
  /\ isTupleOf [optional] None (VArray [Fixture.num 0]) = Ok false
  /\ isObjectOf [("foo", required)] None (VObject []) = Ok false
  /\ isObjectOf [("foo", required)] None (VObject [("foo", Ok undefined)])
     = Ok false
  /\ isObjectOf [("foo", required)] None
       (VObject [("foo", Ok (Fixture.str "string"))]) = Ok true
  /\ isObjectOf [("foo", required)] None
       (VObject [("foo", Ok (Fixture.num 0))]) = Ok false
  /\ isTupleOf [required] None (VArray []) = Ok false
  /\ isTupleOf [required] None (VArray [undefined]) = Ok false
  /\ isTupleOf [required] None (VArray [Fixture.str "string"]) = Ok true
  /\ isTupleOf [required] None (VArray [Fixture.num 0]) = Ok false.
Proof. repeat split; vm_compute; reflexivity. Qed.

(** ** Allocation: the state stays well formed *)

Lemma well_formed_initial : well_formed initial.
Proof.
  split; intros a H; cbn in H.
  - set_solver.
  - rewrite lookup_empty in H. destruct H as [? [=]].
Qed.

Lemma well_formed_new_function (code : Predicate) (st : State) :
  well_formed st ->
  well_formed (new_function code st).2
  /\ allocated (new_function code st).2 (new_function code st).1.
Proof.
  intros [Ho Hm]. unfold well_formed, allocated. cbn. repeat split.
  - intros a Ha. specialize (Ho a Ha). lia.
  - intros a Ha. specialize (Hm a Ha). lia.
  - lia.
Qed.

Lemma well_formed_define_optional (f : Fn) (st : State) :
  well_formed st -> allocated st f ->
  well_formed (define_optional f st).2.
Proof.
  intros [Ho Hm] Hf. split; cbn; [|exact Hm].
  intros a Ha. apply elem_of_union in Ha as [Ha|Ha].
  - apply elem_of_singleton in Ha. subst a. exact Hf.
  - apply Ho, Ha.
Qed.

Lemma well_formed_set_metadata (f : Fn) (m : PredicateFactoryMetadata)
    (st : State) :
  well_formed st -> allocated st f ->
  well_formed (setPredicateFactoryMetadata f m st).2.
Proof.
  intros [Ho Hm] Hf. split; cbn; [exact Ho|].
  intros a Ha. destruct (decide (addr f = a)) as [<-|Hne].
  - exact Hf.
  - rewrite lookup_insert_ne in Ha by exact Hne. apply Hm, Ha.
Qed.

Lemma well_formed_isOptionalOf (pred : Fn) (st : State) :
  well_formed st ->
  well_formed (isOptionalOf pred st).2
  /\ allocated (isOptionalOf pred st).2 (isOptionalOf pred st).1.
Proof.
  intros Hwf. unfold isOptionalOf.
  destruct (well_formed_new_function
              (fun x => isUndefined x ||| call pred x) st Hwf) as [Hwf1 Ha1].
  destruct (new_function _ st) as [f st1]. cbn in *.
  split; [apply well_formed_define_optional; assumption | exact Ha1].
Qed.

Lemma well_formed_asOptional (pred : Fn) (st : State) :
  well_formed st -> allocated st pred ->
  well_formed (As.asOptional pred st).2
  /\ allocated (As.asOptional pred st).2 (As.asOptional pred st).1.
Proof.
  intros Hwf Hp. unfold As.asOptional.
  destruct (isOptional st pred); [split; assumption|].
  destruct (well_formed_new_function
              (fun x => Ok (strictEquals x PUndefined) ||| call pred x)
              st Hwf) as [Hwf1 Ha1].
  destruct (new_function _ st) as [f st1]. cbn in Hwf1, Ha1.
  pose proof (well_formed_set_metadata f
                {| name := "asOptional"; args := [pred] |} st1 Hwf1 Ha1) as Hwf2.
  cbn. split.
  - apply (well_formed_define_optional f _ Hwf2). exact Ha1.
  - exact Ha1.
Qed.

(** ** [isOptionalOf] of src/is.ts *)

(** C10. [isOptionalOf] has no test of its argument: every call creates a
    function object at a new address and gives it the property
    [optional], so its result differs from an argument that already
    carries the facet, and [isOptionalOf(isOptionalOf(p))] is another
    object than [isOptionalOf(p)]; yet the two accept the same values. *)
Theorem isOptionalOf_not_collapsing (pred : Fn) (st : State) :
  let '(q, st1) := isOptionalOf pred st in
  let '(r, st2) := isOptionalOf q st1 in
  (well_formed st -> addr pred ∈ optional_props st -> addr q ≠ addr pred)
  /\ next_addr st1 = S (next_addr st)
  /\ addr q ∈ optional_props st1
  /\ addr r ≠ addr q
  /\ next_addr st2 = S (next_addr st1)
  /\ forall x, call r x = call q x.
Proof.
  cbn. repeat split.
  - intros [Ho _] Hp Heq. specialize (Ho _ Hp). lia.
  - set_solver.
  - lia.
  - intros x. destruct (bool_decide (typeof x = "undefined")); reflexivity.
Qed.

(** [is.OptionalOf(is.OptionalOf(is.String))]: the argument carries the
    facet and the result is another object. *)
Lemma isOptionalOf_of_optional :
  addr Fixture.isOptionalOf_string ∈ optional_props Fixture.st1'
  /\ addr (isOptionalOf Fixture.isOptionalOf_string Fixture.st1').1
     ≠ addr Fixture.isOptionalOf_string.
Proof.
  assert (Hwf : well_formed Fixture.st1').
  { apply well_formed_isOptionalOf, well_formed_new_function,
      well_formed_initial. }
  assert (Hopt : addr Fixture.isOptionalOf_string ∈ optional_props Fixture.st1').
  { cbn. set_solver. }
  split; [exact Hopt|].
  apply (isOptionalOf_not_collapsing Fixture.isOptionalOf_string Fixture.st1');
    assumption.
Defined.

(** ** The frame of [asOptional] *)

(** X6. [asOptional] leaves what is attached to existing function objects
    as it is: the metadata and the optional facet of every object created
    before the call are the same after it, and the state stays well
    formed. *)
Theorem asOptional_frame (pred f : Fn) (st : State) :
  well_formed st -> allocated st f ->
  getPredicateFactoryMetadata (As.asOptional pred st).2 f
  = getPredicateFactoryMetadata st f
  /\ isOptional (As.asOptional pred st).2 f = isOptional st f
  /\ well_formed (As.asOptional pred st).2.
Proof.
  intros Hwf Hf. unfold allocated in Hf. unfold As.asOptional.
  destruct (isOptional st pred) eqn:Hopt; [repeat split; apply Hwf|].
  cbn. split; [|split].
  - unfold getPredicateFactoryMetadata. cbn. apply lookup_insert_ne. lia.
  - unfold isOptional. cbn. apply bool_decide_ext.
    rewrite elem_of_union, elem_of_singleton.
    split; [intros [H|H]; [lia | exact H] | intros H; right; exact H].
  - destruct Hwf as [Ho Hm]. split; cbn.
    + intros a Ha. apply elem_of_union in Ha as [Ha|Ha].
      * apply elem_of_singleton in Ha. lia.
      * specialize (Ho a Ha). lia.
    + intros a Ha. destruct (decide (next_addr st = a)) as [<-|Hne]; [lia|].
      rewrite lookup_insert_ne in Ha by exact Hne. specialize (Hm a Ha). lia.
Qed.

(** [as.Optional(is.String)] leaves [is.String] without metadata and
    without the facet. *)
Lemma asOptional_frame_isString :
  getPredicateFactoryMetadata Fixture.st1 Fixture.isString_fn = None
  /\ isOptional Fixture.st1 Fixture.isString_fn = false.
Proof.
  destruct (asOptional_frame Fixture.isString_fn Fixture.isString_fn
              Fixture.st0) as (Hm & Ho & _).
  - apply well_formed_new_function, well_formed_initial.
  - apply well_formed_new_function, well_formed_initial.
  - split.
    + etransitivity; [exact Hm|]. reflexivity.
    + etransitivity; [exact Ho|]. vm_compute. reflexivity.
Defined.

(** * Further laws of src/is.ts *)

(** ** The leaf predicates *)

(** X7. [isPrimitive] accepts exactly what one of the seven primitive
    leaves accepts, and [isNullish] exactly what [isNull] or [isUndefined]
    accepts; the [typeof] test of [isUndefined] agrees with the literal
    predicate of [undefined], and [isNull] with that of [null]. *)
Theorem isPrimitive_is_union_of_leaves (x : value) :
  isPrimitive x
  = isOneOf [isString; isNumber; isBigInt; isBoolean; isNull; isUndefined;
             isSymbol] x
  /\ isNullish x = isOneOf [isNull; isUndefined] x
  /\ isUndefined x = isLiteralOf PUndefined x
  /\ isNull x = isLiteralOf PNull x
  /\ (isPrimitive x = Ok true <-> exists p, x = VPrim p).
Proof.
  destruct x as [[]| | |]; repeat split; try reflexivity;
    try discriminate; eauto; intros [p [=]].
Qed.

(** X8. Every value is of exactly one kind for the library: a primitive,
    an array, a record or a function.  [isRecord] rejects [null] and
    arrays although their [typeof] is ["object"]. *)
Theorem value_kinds_are_disjoint (x : value) :
  let kinds :=
    [isPrimitive x; isArray x; isRecord x;
     Ok (bool_decide (typeof x = "function"))] in
  (kinds = [Ok true; Ok false; Ok false; Ok false]
   \/ kinds = [Ok false; Ok true; Ok false; Ok false]
   \/ kinds = [Ok false; Ok false; Ok true; Ok false]
   \/ kinds = [Ok false; Ok false; Ok false; Ok true])
  /\ (typeof x = "object" ->
      isRecord x = Ok (negb (loosely_equals_null x || Array_isArray x)))
  /\ (isRecord x = Ok true -> typeof x = "object").
Proof.
  destruct x as [[]| | |]; cbv zeta; repeat split;
    try discriminate; try reflexivity;
    first [ left; reflexivity
          | right; left; reflexivity
          | right; right; left; reflexivity
          | right; right; right; reflexivity ].
Qed.

(** ** Unions, intersections and optional wrappers *)

Lemma isOneOf_nil (x : value) : isOneOf [] x = Ok false.
Proof. reflexivity. Qed.

Lemma isAllOf_nil (x : value) : isAllOf [] x = Ok true.
Proof. reflexivity. Qed.

Lemma isOneOf_pair (p q : Predicate) (x : value) :
  isOneOf [p; q] x = p x ||| q x.
Proof.
  rewrite !isOneOf_cons, isOneOf_nil. unfold or_else.
  destruct (p x) as [[]|]; simpl; try reflexivity.
  destruct (q x) as [[]|]; reflexivity.
Qed.

Lemma isAllOf_pair (p q : Predicate) (x : value) :
  isAllOf [p; q] x = p x &&& q x.
Proof.
  rewrite !isAllOf_cons, isAllOf_nil. unfold and_then.
  destruct (p x) as [[]|]; simpl; try reflexivity.
  destruct (q x) as [[]|]; reflexivity.
Qed.

(** X9. Unions and intersections flatten: a predicate list may be split
    into nested [isOneOf] (or [isAllOf]) calls, and a list of one predicate
    is that predicate.  The equalities hold for every outcome, an
    exception included. *)
Theorem isOneOf_isAllOf_flatten (ps qs : list Predicate) (p : Predicate)
    (x : value) :
  isOneOf (ps ++ qs) x = isOneOf [isOneOf ps; isOneOf qs] x
  /\ isAllOf (ps ++ qs) x = isAllOf [isAllOf ps; isAllOf qs] x
  /\ isOneOf [p] x = p x
  /\ isAllOf [p] x = p x.
Proof.
  rewrite isOneOf_pair, isAllOf_pair. repeat split.
  - induction ps as [|p' ps IH].
    + rewrite app_nil_l, isOneOf_nil, or_else_pure.
      reflexivity.
    + rewrite <- app_comm_cons.
      rewrite !isOneOf_cons, IH. unfold or_else.
      destruct (p' x) as [[]|]; reflexivity.
  - induction ps as [|p' ps IH].
    + rewrite app_nil_l, isAllOf_nil. reflexivity.
    + rewrite <- app_comm_cons.
      rewrite !isAllOf_cons, IH. unfold and_then.
      destruct (p' x) as [[]|]; reflexivity.
  - rewrite isOneOf_cons, isOneOf_nil. destruct (p x) as [[]|]; reflexivity.
  - rewrite isAllOf_cons, isAllOf_nil. destruct (p x) as [[]|]; reflexivity.
Qed.

(** X10. An optional wrapper is the union of [isUndefined] and the wrapped
    predicate, whichever factory built it: it accepts [undefined] without
    calling the wrapped predicate, and on every other value its outcome is
    the outcome of the wrapped predicate. *)
Theorem optional_wrapper_is_union (pred : Fn) (st : State) (x : value) :
  call (isOptionalOf pred st).1 x = isOneOf [isUndefined; call pred] x
  /\ (isOptional st pred = false ->
      call (As.asOptional pred st).1 x = isOneOf [isUndefined; call pred] x)
  /\ (forall isOptional' : State -> Fn -> bool,
      isOptional' st pred = false ->
      call (AsNext.asOptional isOptional' pred st).1 x
      = isOneOf [isUndefined; call pred] x)
  /\ isOneOf [isUndefined; call pred] undefined = Ok true
  /\ (isUndefined x = Ok false ->
      isOneOf [isUndefined; call pred] x = call pred x).
Proof.
  rewrite isOneOf_pair. repeat split.
  - intros H. rewrite asOptional_call, H, isUndefined_eq. reflexivity.
  - intros f H. unfold AsNext.asOptional. rewrite H, isUndefined_eq.
    reflexivity.
  - intros ->. reflexivity.
Qed.

(** X11. Away from [NaN], [isLiteralOneOf(literals)] is the union of the
    literal predicates of its members. *)
Theorem isLiteralOneOf_is_union (literals : list primitive) (x : value) :
  is_NaN_value x = false ->
  isLiteralOneOf literals x = isOneOf (isLiteralOf <$> literals) x.
Proof.
  intros Hx. induction literals as [|lit literals IH].
  - reflexivity.
  - rewrite fmap_cons, isOneOf_cons, <- IH.
    unfold isLiteralOneOf, isLiteralOf. simpl.
    rewrite sameValueZero_eq, Hx, orb_false_r.
    destruct (strictEquals x lit); reflexivity.
Qed.

(** [isLiteralOneOf(["hello", "world"])] at the string ["world"]. *)
Lemma isLiteralOneOf_hello_world :
  isLiteralOneOf [PString "hello"; PString "world"] (Fixture.str "world")
  = isOneOf [isLiteralOf (PString "hello"); isLiteralOf (PString "world")]
      (Fixture.str "world").
Proof.
  apply (isLiteralOneOf_is_union [PString "hello"; PString "world"]
           (Fixture.str "world")).
  reflexivity.
Defined.

(** ** Evaluation stops at the first element that decides *)

Lemma every_from_stops {A} (f : A -> nat -> Res bool) (xs zs : list A)
    (y : A) (i : nat) :
  (forall j a, xs !! j = Some a -> f a (i + j) = Ok true) ->
  f y (i + length xs) = Ok false ->
  every_from i f (xs ++ y :: zs) = Ok false.
Proof.
  revert i. induction xs as [|a xs IH]; intros i Hxs Hy; simpl.
  - simpl in Hy. rewrite Nat.add_0_r in Hy. rewrite Hy. reflexivity.
  - pose proof (Hxs 0 a eq_refl) as Ha. rewrite Nat.add_0_r in Ha.
    rewrite Ha. simpl. apply IH.
    + intros j a' Hj. rewrite Nat.add_succ_comm. apply (Hxs (S j)), Hj.
    + rewrite Nat.add_succ_comm. exact Hy.
Qed.

Lemma some_from_stops {A} (f : A -> nat -> Res bool) (xs zs : list A)
    (y : A) (i : nat) :
  (forall j a, xs !! j = Some a -> f a (i + j) = Ok false) ->
  f y (i + length xs) = Ok true ->
  some_from i f (xs ++ y :: zs) = Ok true.
Proof.
  revert i. induction xs as [|a xs IH]; intros i Hxs Hy; simpl.
  - simpl in Hy. rewrite Nat.add_0_r in Hy. rewrite Hy. reflexivity.
  - pose proof (Hxs 0 a eq_refl) as Ha. rewrite Nat.add_0_r in Ha.
    rewrite Ha. simpl. apply IH.
    + intros j a' Hj. rewrite Nat.add_succ_comm. apply (Hxs (S j)), Hj.
    + rewrite Nat.add_succ_comm. exact Hy.
Qed.

Lemma for_in_all_stops (ks ks' : list string) (k : string)
    (check : string -> Res bool) :
  Forall (fun k' => check k' = Ok true) ks ->
  check k = Ok false ->
  for_in_all (ks ++ k :: ks') check = Ok false.
Proof.
  induction 1 as [|k0 ks Hk0 _ IH]; intros Hk; simpl.
  - rewrite Hk. reflexivity.
  - rewrite Hk0. simpl. apply IH, Hk.
Qed.

Lemma assoc_app {A} (k : string) (l1 l2 : list (string * A)) :
  assoc k (l1 ++ l2)
  = match assoc k l1 with Some a => Some a | None => assoc k l2 end.
Proof.
  induction l1 as [|[k' a] l1 IH]; simpl.
  - reflexivity.
  - destruct (bool_decide (k' = k)); [reflexivity | exact IH].
Qed.

Lemma assoc_None {A} (k : string) (l : list (string * A)) :
  k ∉ l.*1 -> assoc k l = None.
Proof.
  intros Hk. destruct (assoc k l) as [a|] eqn:Ha; [|reflexivity].
  exfalso. apply Hk. apply assoc_elem_of in Ha.
  apply (list_elem_of_fmap_2 fst) in Ha. exact Ha.
Qed.

Lemma assoc_head {A} (k : string) (a : A) (l : list (string * A)) :
  assoc k ((k, a) :: l) = Some a.
Proof. simpl. rewrite bool_decide_eq_true_2; reflexivity. Qed.

(** X12. Each combinator stops at the first element that decides its
    result: what comes after a rejected element of an array, a rejecting
    member of an intersection, an accepting member of a union, a rejected
    property of a record or a rejecting entry of a descriptor is not
    examined, so the result is the same whatever the predicates would do
    there, raising included. *)
Theorem combinators_stop_at_first_decision (pred q : Predicate)
    (ps rs : list Predicate) (x y : value) (xs zs : list value) :
  (Forall (fun v => pred v = Ok true) xs -> pred y = Ok false ->
   isArrayOf pred (VArray (xs ++ y :: zs)) = Ok false)
  /\ (Forall (fun p => p x = Ok true) ps -> q x = Ok false ->
      isAllOf (ps ++ q :: rs) x = Ok false)
  /\ (Forall (fun p => p x = Ok false) ps -> q x = Ok true ->
      isOneOf (ps ++ q :: rs) x = Ok true)
  /\ (forall (props props' : list (string * Res value)) (k : string),
      Forall (fun kr => exists v, kr.2 = Ok v /\ pred v = Ok true) props ->
      k ∉ props.*1 -> pred y = Ok false ->
      isRecordOf pred (VObject (props ++ (k, Ok y) :: props')) = Ok false)
  /\ (forall (d d' : list (string * Predicate)) (k : string),
      isRecord x = Ok true ->
      (forall k' p, assoc k' d = Some p ->
         exists v, get x k' = Ok v /\ p v = Ok true) ->
      k ∉ d.*1 -> get x k = Ok y -> q y = Ok false ->
      isObjectOf (d ++ (k, q) :: d') None x = Ok false).
Proof.
  split; [|split; [|split; [|split]]].
  - intros Hxs Hy. cbn. apply every_from_stops.
    + intros j a Hj. rewrite Forall_lookup in Hxs. apply (Hxs j a Hj).
    + exact Hy.
  - intros Hps Hq. apply every_from_stops.
    + intros j a Hj. rewrite Forall_lookup in Hps. apply (Hps j a Hj).
    + exact Hq.
  - intros Hps Hq. apply some_from_stops.
    + intros j a Hj. rewrite Forall_lookup in Hps. apply (Hps j a Hj).
    + exact Hq.
  - intros props props' k Hprops Hk Hy.
    unfold isRecordOf. rewrite isRecord_eq. cbn.
    rewrite fmap_app, fmap_cons. cbn. apply for_in_all_stops.
    + apply Forall_forall. intros k' Hk'. rewrite assoc_app.
      destruct (assoc_is_Some k' props Hk') as [r Hr]. rewrite Hr. cbn.
      apply assoc_elem_of in Hr. rewrite Forall_forall in Hprops.
      destruct (Hprops _ Hr) as (v & Hv & Hacc). cbn in Hv. subst r. exact Hacc.
    + rewrite assoc_app, (assoc_None k props Hk), assoc_head. cbn. exact Hy.
  - intros d d' k Hx Hd Hk Hget Hq.
    unfold isObjectOf, isObjectOfLoose. cbn [default from_option].
    rewrite Hx. cbn [bind negb]. rewrite fmap_app, fmap_cons. cbn [fst].
    apply for_in_all_stops.
    + apply Forall_forall. intros k' Hk'. rewrite assoc_app.
      destruct (assoc_is_Some k' d Hk') as [p Hp]. rewrite Hp.
      destruct (Hd k' p Hp) as (v & Hv & Hacc). rewrite Hv. exact Hacc.
    + rewrite Hget, assoc_app, (assoc_None k d Hk), assoc_head. exact Hq.
Qed.

(** A member that rejects hides the raising members after it. *)
Lemma isAllOf_stops_before_raising :
  isAllOf [isString; isNumber; Fixture.raising] (Fixture.str "a") = Ok false.
Proof.
  apply (combinators_stop_at_first_decision isAny isNumber [isString]
           [Fixture.raising] (Fixture.str "a") undefined [] []).
  - repeat constructor.
  - reflexivity.
Defined.

(** ** Tuples with a rest predicate *)

Lemma isArrayOf_true (pred : Predicate) (x : value) :
  isArrayOf pred x = Ok true
  <-> exists xs, x = VArray xs /\ Forall (fun v => pred v = Ok true) xs.
Proof.
  unfold isArrayOf. split.
  - destruct x as [p|xs|props|id]; try discriminate. cbn.
    unfold every. rewrite every_from_true. intros H.
    exists xs. split; [reflexivity|]. apply Forall_lookup. intros i v Hv.
    apply (H i v Hv).
  - intros (xs & -> & H). cbn. unfold every. rewrite every_from_true.
    intros j v Hv. rewrite Forall_lookup in H. apply (H j v Hv).
Qed.

Lemma isTupleOf_rest_true (predTup : list Predicate) (predElse : Predicate)
    (x : value) :
  isTupleOf predTup (Some predElse) x = Ok true
  <-> exists xs, x = VArray xs
      /\ length predTup <= length xs
      /\ Forall2 (fun pred v => pred v = Ok true)
           predTup (take (length predTup) xs)
      /\ predElse (VArray (drop (length predTup) xs)) = Ok true.
Proof.
  split.
  - destruct x as [p|xs|props|id]; try discriminate.
    cbn. case_bool_decide as Hlen; [discriminate|]. cbn.
    apply Nat.nlt_ge in Hlen. rewrite and_then_true. intros [H Hrest].
    exists xs. split; [reflexivity|]. split; [exact Hlen|].
    split; [|exact Hrest].
    apply every_index_Forall2; [|exact H]. apply length_take_le, Hlen.
  - intros (xs & -> & Hlen & H & Hrest). cbn.
    rewrite bool_decide_eq_false_2 by lia. cbn.
    rewrite and_then_true. split; [|exact Hrest].
    apply every_index_Forall2; [|exact H]. apply length_take_le, Hlen.
Qed.

(** X13. How the rest predicate of [isTupleOf] composes.  With
    [isArrayOf(q)] as rest, the tuple predicate accepts exactly the arrays
    whose first [predTup.length] elements are accepted position by
    position and whose other elements are all accepted by [q].  With the
    empty tuple as rest it accepts what [isTupleOf(predTup)] accepts.
    With no positional predicate the rest predicate alone decides, on a
    copy of the array.  The readonly variants have the outcomes of
    [isTupleOf] and [isUniformTupleOf]. *)
Theorem isTupleOf_rest_compositions (predTup : list Predicate) (x : value) :
  (forall q,
     isTupleOf predTup (Some (isArrayOf q)) x = Ok true
     <-> exists xs, x = VArray xs
         /\ length predTup <= length xs
         /\ Forall2 (fun pred v => pred v = Ok true)
              predTup (take (length predTup) xs)
         /\ Forall (fun v => q v = Ok true) (drop (length predTup) xs))
  /\ (isTupleOf predTup (Some (isTupleOf [] None)) x = Ok true
      <-> isTupleOf predTup None x = Ok true)
  /\ (forall rest,
      isTupleOf [] (Some rest) x = Ok true
      <-> exists xs, x = VArray xs /\ rest (VArray xs) = Ok true)
  /\ (forall rest, isReadonlyTupleOf predTup rest x = isTupleOf predTup rest x)
  /\ (forall n pred,
      isReadonlyUniformTupleOf n pred x = isUniformTupleOf n pred x).
Proof.
  split; [|split; [|split; [|split; [|reflexivity]]]].
  - intros q. rewrite isTupleOf_rest_true. split.
    + intros (xs & -> & Hlen & H & Hrest). exists xs.
      repeat (split; [assumption || reflexivity|]).
      apply isArrayOf_true in Hrest as (ys & [= <-] & Hys). exact Hys.
    + intros (xs & -> & Hlen & H & Hrest). exists xs.
      repeat (split; [assumption || reflexivity|]).
      apply isArrayOf_true. eauto.
  - rewrite isTupleOf_rest_true, isTupleOf_exact_true. split.
    + intros (xs & -> & Hlen & H & Hrest). exists xs. split; [reflexivity|].
      apply isTupleOf_exact_true in Hrest as (ys & [= <-] & Hys & _).
      simpl in Hys. rewrite length_drop in Hys.
      assert (Heq : length xs = length predTup) by lia.
      split; [exact Heq|]. rewrite <- Heq, firstn_all in H. exact H.
    + intros (xs & -> & Hlen & H). exists xs. split; [reflexivity|].
      split; [lia|]. split.
      * rewrite <- Hlen, firstn_all. exact H.
      * apply isTupleOf_exact_true. rewrite <- Hlen, drop_all.
        exists []. repeat split. constructor.
  - intros rest. rewrite isTupleOf_rest_true. split.
    + intros (xs & -> & _ & _ & H). exists xs. split; [reflexivity | exact H].
    + intros (xs & -> & H). exists xs. split; [reflexivity|].
      split; [simpl; lia|]. split; [constructor | exact H].
  - intros [rest|]; reflexivity.
Qed.

(** ** Degenerate arguments *)

(** X14. The combinators on empty arguments.  The empty intersection
    accepts every value and the empty union and the empty literal set
    none.  The empty tuple and the uniform tuple of length 0 accept only
    the empty array.  The empty descriptor accepts every record without
    [strict] and only the record without keys with it.  The empty array
    and the record without keys are accepted by [isArrayOf] and
    [isRecordOf] of any predicate, which is not called. *)
Theorem combinators_on_empty_arguments (pred : Predicate) (x : value) :
  isAllOf [] x = Ok true
  /\ isOneOf [] x = Ok false
  /\ isLiteralOneOf [] x = Ok false
  /\ (isTupleOf [] None x = Ok true <-> x = VArray [])
  /\ (isUniformTupleOf 0 (Some pred) x = Ok true <-> x = VArray [])
  /\ isObjectOf [] None x = isRecord x
  /\ (isObjectOf [] (Some true) x = Ok true <-> x = VObject [])
  /\ isArrayOf pred (VArray []) = Ok true
  /\ isRecordOf pred (VObject []) = Ok true.
Proof.
  repeat split.
  - intros H. apply isTupleOf_exact_true in H as (xs & -> & Hlen & _).
    destruct xs; [reflexivity | discriminate].
  - intros ->. reflexivity.
  - intros H. apply isTupleOf_exact_true in H as (xs & -> & Hlen & _).
    destruct xs; [reflexivity | discriminate].
  - intros ->. reflexivity.
  - unfold isObjectOf, isObjectOfLoose. cbn [default from_option fmap list_fmap].
    destruct (isRecord x) as [[]|]; reflexivity.
  - intros H. apply isObjectOfStrict_true in H as (Hx & _ & ks & Hks & Hlen & _).
    apply isRecord_true in Hx as [props ->]. injection Hks as <-.
    destruct props; [reflexivity|]. exfalso.
    change (size (list_to_set (@nil (string * Predicate)).*1 : gset string))
      with (size (∅ : gset string)) in Hlen.
    rewrite size_empty in Hlen. simpl in Hlen. lia.
  - intros ->. reflexivity.
Qed.

(** ** Object descriptors: modes, merging and order *)

Lemma isObjectOfStrict_unfold (predObj : list (string * Predicate)) (x : value) :
  isObjectOfStrict predObj x
  = match isObjectOfLoose predObj x with
    | Ok true =>
        let* ks := Object_keys x in
        Ok (bool_decide
              (length ks ≤ size (list_to_set predObj.*1 : gset string))
            && forallb
                 (fun k => bool_decide
                             (k ∈ (list_to_set predObj.*1 : gset string))) ks)
    | r => r
    end.
Proof.
  unfold isObjectOfStrict.
  destruct (isObjectOfLoose predObj x) as [[]|]; reflexivity.
Qed.

(** X15. Strict mode refines loose mode: whatever the strict predicate
    accepts the loose one accepts; a value the loose one rejects, or on
    which it raises, gets the same outcome in strict mode; and on a value
    the loose one accepts the strict one returns a boolean.  For a value
    with distinct keys the comparison of the key counts never decides:
    strict mode accepts exactly when loose mode accepts and every key of
    the value is a key of the descriptor. *)
Theorem isObjectOf_strict_refines_loose (predObj : list (string * Predicate))
    (x : value) :
  (isObjectOf predObj (Some true) x = Ok true ->
   isObjectOf predObj None x = Ok true)
  /\ (isObjectOf predObj None x = Ok false ->
      isObjectOf predObj (Some true) x = Ok false)
  /\ (forall e, isObjectOf predObj None x = Throw e ->
      isObjectOf predObj (Some true) x = Throw e)
  /\ (isObjectOf predObj None x = Ok true ->
      exists b, isObjectOf predObj (Some true) x = Ok b)
  /\ (forall ks, Object_keys x = Ok ks -> NoDup ks ->
      (isObjectOf predObj (Some true) x = Ok true
       <-> isObjectOf predObj None x = Ok true
           /\ forall k, k ∈ ks -> k ∈ predObj.*1))
  /\ isObjectOf predObj (Some false) x = isObjectOf predObj None x.
Proof.
  change (isObjectOf predObj (Some true)) with (isObjectOfStrict predObj).
  change (isObjectOf predObj None) with (isObjectOfLoose predObj).
  rewrite isObjectOfStrict_unfold.
  split; [|split; [|split; [|split; [|split]]]].
  - destruct (isObjectOfLoose predObj x) as [[]|]; try discriminate. reflexivity.
  - intros ->. reflexivity.
  - intros e ->. reflexivity.
  - intros Hl. rewrite Hl. apply isObjectOfLoose_true in Hl as [Hx _].
    apply isRecord_true in Hx as [props ->]. cbn. eauto.
  - intros ks Hks Hnd. rewrite <- isObjectOfStrict_unfold.
    rewrite isObjectOfStrict_true, isObjectOfLoose_true. split.
    + intros (Hx & Hp & ks' & Hks' & _ & Hsub).
      rewrite Hks in Hks'. injection Hks' as <-. auto.
    + intros [[Hx Hp] Hsub]. split; [exact Hx|]. split; [exact Hp|].
      exists ks. split; [exact Hks|]. split; [|exact Hsub].
      apply length_le_size_keys; assumption.
  - reflexivity.
Qed.

Lemma isAllOf_pair_true (p q : Predicate) (x : value) :
  isAllOf [p; q] x = Ok true <-> p x = Ok true /\ q x = Ok true.
Proof. rewrite isAllOf_pair. apply and_then_true. Qed.

(** X16. The intersection of two object predicates and the object
    predicate of the merged descriptor: what [isAllOf([isObjectOf(d1),
    isObjectOf(d2)])] accepts, [isObjectOf({ ...d1, ...d2 })] accepts, and
    conversely when the two descriptors share no key. *)
Theorem isAllOf_of_isObjectOf (d1 d2 : list (string * Predicate)) (x : value) :
  (isAllOf [isObjectOf d1 None; isObjectOf d2 None] x = Ok true ->
   isObjectOf (d1 ++ d2) None x = Ok true)
  /\ ((forall k, k ∈ d1.*1 -> k ∉ d2.*1) ->
      isObjectOf (d1 ++ d2) None x = Ok true ->
      isAllOf [isObjectOf d1 None; isObjectOf d2 None] x = Ok true).
Proof.
  rewrite isAllOf_pair_true.
  change (isObjectOf d1 None) with (isObjectOfLoose d1).
  change (isObjectOf d2 None) with (isObjectOfLoose d2).
  change (isObjectOf (d1 ++ d2) None) with (isObjectOfLoose (d1 ++ d2)).
  rewrite !isObjectOfLoose_true. split.
  - intros [[Hx H1] [_ H2]]. split; [exact Hx|]. intros k pred Hk.
    rewrite assoc_app in Hk. destruct (assoc k d1) as [p|] eqn:Hk1.
    + injection Hk as <-. apply H1, Hk1.
    + apply H2, Hk.
  - intros Hdisj [Hx H]. split; (split; [exact Hx|]); intros k pred Hk.
    + apply H. rewrite assoc_app, Hk. reflexivity.
    + apply H. rewrite assoc_app, assoc_None; [exact Hk|].
      intros Hk1. apply (Hdisj k Hk1). apply assoc_elem_of in Hk.
      apply (list_elem_of_fmap_2 fst) in Hk. exact Hk.
Qed.

(** [is.AllOf([is.ObjectOf({ a: is.Number }), is.ObjectOf({ b: is.String
    })])] accepts [{ a: 0, b: "a" }], as [is.ObjectOf({ a: is.Number, b:
    is.String })] does. *)
Lemma isAllOf_of_isObjectOf_a_b :
  isAllOf [isObjectOf [("a", isNumber)] None; isObjectOf [("b", isString)] None]
    (VObject [("a", Ok (Fixture.num 0)); ("b", Ok (Fixture.str "a"))])
  = Ok true.
Proof.
  apply (isAllOf_of_isObjectOf [("a", isNumber)] [("b", isString)]).
  - intros k Ha Hb. apply list_elem_of_singleton in Ha, Hb.
    rewrite Ha in Hb. discriminate Hb.
  - vm_compute. reflexivity.
Defined.

Lemma assoc_Some_NoDup {A} (k : string) (a : A) (l : list (string * A)) :
  NoDup l.*1 -> (k, a) ∈ l -> assoc k l = Some a.
Proof.
  induction l as [|[k' a'] l IH]; intros Hnd Hin.
  - inversion Hin.
  - rewrite fmap_cons in Hnd. apply NoDup_cons in Hnd as [Hk' Hnd].
    apply elem_of_cons in Hin as [[= <- <-]|Hin].
    + apply assoc_head.
    + simpl. rewrite bool_decide_eq_false_2; [apply IH; assumption|].
      intros ->. apply Hk'. apply (list_elem_of_fmap_2 fst) in Hin. exact Hin.
Qed.

Lemma assoc_Permutation {A} (k : string) (l l' : list (string * A)) :
  NoDup l.*1 -> l ≡ₚ l' -> assoc k l' = assoc k l.
Proof.
  intros Hnd Hperm.
  assert (Hnd' : NoDup l'.*1) by (rewrite <- Hperm; exact Hnd).
  destruct (assoc k l) as [a|] eqn:Ha.
  - apply assoc_Some_NoDup; [exact Hnd'|]. rewrite <- Hperm.
    apply assoc_elem_of, Ha.
  - destruct (assoc k l') as [a'|] eqn:Ha'; [|reflexivity].
    apply assoc_elem_of in Ha'. rewrite <- Hperm in Ha'.
    apply (assoc_Some_NoDup _ _ _ Hnd) in Ha'. congruence.
Qed.

Lemma isObjectOf_reordered (d d' : list (string * Predicate))
    (props props' : list (string * Res value)) (strict : option bool) :
  d ≡ₚ d' -> NoDup d.*1 -> props ≡ₚ props' -> NoDup props.*1 ->
  isObjectOf d strict (VObject props) = Ok true ->
  isObjectOf d' strict (VObject props') = Ok true.
Proof.
  intros Hd Hnd Hp Hnp.
  assert (Hloose : forall k pred, assoc k d' = Some pred ->
    (exists v, get (VObject props) k = Ok v /\ pred v = Ok true) ->
    exists v, get (VObject props') k = Ok v /\ pred v = Ok true).
  { intros k pred _ H. simpl in *.
    rewrite (assoc_Permutation k props props' Hnp Hp). exact H. }
  unfold isObjectOf. destruct (default false strict).
  - rewrite !isObjectOfStrict_true.
    intros (_ & Hacc & ks & [= <-] & Hlen & Hsub).
    split; [reflexivity|]. split.
    + intros k pred Hk. apply (Hloose k pred Hk). apply Hacc.
      rewrite <- (assoc_Permutation k d d' Hnd Hd). exact Hk.
    + exists props'.*1. split; [reflexivity|]. split.
      * rewrite <- Hp.
        replace (list_to_set d'.*1 : gset string)
          with (list_to_set d.*1 : gset string); [exact Hlen|].
        apply set_eq. intros k. rewrite !elem_of_list_to_set, Hd. reflexivity.
      * intros k Hk. rewrite <- Hd. apply Hsub. rewrite Hp. exact Hk.
  - rewrite !isObjectOfLoose_true. intros [_ Hacc]. split; [reflexivity|].
    intros k pred Hk. apply (Hloose k pred Hk). apply Hacc.
    rewrite <- (assoc_Permutation k d d' Hnd Hd). exact Hk.
Qed.

(** X17. The order of the keys is irrelevant to acceptance, in the
    descriptor and in the value: listing the entries of a descriptor, or
    the properties of a record, in another order changes nothing of what
    [isObjectOf] accepts, in loose and in strict mode. *)
Theorem isObjectOf_order_irrelevant (d d' : list (string * Predicate))
    (props props' : list (string * Res value)) (strict : option bool) :
  d ≡ₚ d' -> NoDup d.*1 -> props ≡ₚ props' -> NoDup props.*1 ->
  (isObjectOf d strict (VObject props) = Ok true
   <-> isObjectOf d' strict (VObject props') = Ok true).
Proof.
  intros Hd Hnd Hp Hnp. split.
  - apply isObjectOf_reordered; assumption.
  - apply isObjectOf_reordered.
    + symmetry. exact Hd.
    + rewrite <- Hd. exact Hnd.
    + symmetry. exact Hp.
    + rewrite <- Hp. exact Hnp.
Qed.

(** [{ a: isNumber, b: isString }] on [{ b: "x", a: 1 }] and [{ b:
    isString, a: isNumber }] on [{ a: 1, b: "x" }], in strict mode. *)
Lemma isObjectOf_order_a_b :
  isObjectOf [("a", isNumber); ("b", isString)] (Some true)
    (VObject [("b", Ok (Fixture.str "x")); ("a", Ok (Fixture.num 1))])
  = Ok true
  <-> isObjectOf [("b", isString); ("a", isNumber)] (Some true)
        (VObject [("a", Ok (Fixture.num 1)); ("b", Ok (Fixture.str "x"))])
      = Ok true.
Proof.
  apply (isObjectOf_order_irrelevant
           [("a", isNumber); ("b", isString)]
           [("b", isString); ("a", isNumber)]).
  - apply Permutation_swap.
  - simpl. apply NoDup_cons. split; [|apply NoDup_singleton].
    intros H. apply list_elem_of_singleton in H. discriminate H.
  - apply Permutation_swap.
  - simpl. apply NoDup_cons. split; [|apply NoDup_singleton].
    intros H. apply list_elem_of_singleton in H. discriminate H.
Defined.

(** ** Narrowing: the combinators are monotone *)

Lemma isAllOf_true (preds : list Predicate) (x : value) :
  isAllOf preds x = Ok true <-> Forall (fun p => p x = Ok true) preds.
Proof.
  induction preds as [|p preds IH].
  - split; [constructor | reflexivity].
  - rewrite isAllOf_cons, bind_Ok, Forall_cons. split.
    + intros ([] & Hp & H); [|discriminate]. split; [exact Hp | apply IH, H].
    + intros [Hp H]. exists true. split; [exact Hp | apply IH, H].
Qed.

Lemma isOneOf_true_Exists (preds : list Predicate) (x : value) :
  isOneOf preds x = Ok true -> Exists (fun p => p x = Ok true) preds.
Proof.
  induction preds as [|p preds IH].
  - discriminate.
  - rewrite isOneOf_cons, bind_Ok. intros ([] & Hp & H).
    + left. exact Hp.
    + right. apply IH, H.
Qed.

Lemma Forall2_implies_accept (ps qs : list Predicate) (xs : list value) :
  Forall2 implies ps qs ->
  Forall2 (fun pred v => pred v = Ok true) ps xs ->
  Forall2 (fun pred v => pred v = Ok true) qs xs.
Proof.
  intros Himp. revert xs. induction Himp as [|p q ps qs Hpq _ IH]; intros xs H.
  - inversion H. constructor.
  - inversion H as [|? v ? xs' Hp Hps]; subst. constructor.
    + apply Hpq, Hp.
    + apply IH, Hps.
Qed.

Lemma descriptor_implies (d e : list (string * Predicate)) :
  Forall2 (fun a b => a.1 = b.1 /\ implies a.2 b.2) d e ->
  e.*1 = d.*1
  /\ forall k q, assoc k e = Some q ->
       exists p, assoc k d = Some p /\ implies p q.
Proof.
  induction 1 as [|[k1 p1] [k2 q1] d e [Hk Hpq] _ [IHk IH]]; simpl in *.
  - split; [reflexivity | discriminate].
  - subst k2. split; [f_equal; exact IHk|]. intros k q.
    destruct (bool_decide (k1 = k)).
    + intros [= <-]. eauto.
    + apply IH.
Qed.

(** X18. The combinators are monotone: when every predicate given to a
    combinator is replaced by one that accepts at least the same values,
    the combined predicate accepts at least the same values.  For a union
    this needs the new members to return a boolean, since a member that
    raises hides the members after it. *)
Theorem combinators_are_monotone (p q : Predicate) (ps qs : list Predicate)
    (d e : list (string * Predicate)) :
  (implies p q ->
   implies (isArrayOf p) (isArrayOf q)
   /\ implies (isRecordOf p) (isRecordOf q)
   /\ forall n, implies (isUniformTupleOf n (Some p))
                  (isUniformTupleOf n (Some q)))
  /\ (Forall2 implies ps qs ->
      implies (isTupleOf ps None) (isTupleOf qs None)
      /\ (implies p q ->
          implies (isTupleOf ps (Some p)) (isTupleOf qs (Some q)))
      /\ implies (isAllOf ps) (isAllOf qs)
      /\ ((forall x, Forall (fun q' => returns_at q' x) qs) ->
          implies (isOneOf ps) (isOneOf qs)))
  /\ (Forall2 (fun a b => a.1 = b.1 /\ implies a.2 b.2) d e ->
      forall strict, implies (isObjectOf d strict) (isObjectOf e strict)).
Proof.
  split; [|split].
  - intros Hpq. split; [|split].
    + intros x. rewrite !isArrayOf_true. intros (xs & -> & H).
      exists xs. split; [reflexivity|]. eapply Forall_impl; [exact H|].
      intros v. apply Hpq.
    + intros x. unfold isRecordOf.
      destruct (isRecord x) as [[]|]; simpl; try discriminate.
      rewrite !for_in_all_true. intros H.
      eapply Forall_impl; [exact H|]. intros k. cbv beta.
      rewrite !bind_Ok. clear H. intros (v & Hv & H). exists v. split; [exact Hv|].
      apply Hpq, H.
    + intros n x.
      change (isUniformTupleOf n (Some p)) with (isTupleOf (replicate n p) None).
      change (isUniformTupleOf n (Some q)) with (isTupleOf (replicate n q) None).
      rewrite !isTupleOf_exact_true. intros (xs & -> & Hlen & H).
      exists xs. split; [reflexivity|]. rewrite length_replicate in *.
      split; [exact Hlen|]. eapply Forall2_implies_accept; [|exact H].
      apply Forall2_replicate. exact Hpq.
  - intros Himp. split; [|split; [|split]].
    + intros x. rewrite !isTupleOf_exact_true. intros (xs & -> & Hlen & H).
      exists xs. split; [reflexivity|].
      rewrite <- (Forall2_length _ _ _ Himp). split; [exact Hlen|].
      eapply Forall2_implies_accept; eassumption.
    + intros Hpq x. rewrite !isTupleOf_rest_true.
      intros (xs & -> & Hlen & H & Hrest). exists xs. split; [reflexivity|].
      rewrite <- (Forall2_length _ _ _ Himp). split; [exact Hlen|]. split.
      * eapply Forall2_implies_accept; eassumption.
      * apply Hpq, Hrest.
    + intros x. rewrite !isAllOf_true. intros H.
      apply Forall_forall. intros q' Hq'.
      apply list_elem_of_lookup in Hq' as [i Hi].
      destruct (Forall2_lookup_r _ _ _ _ _ Himp Hi) as (p' & Hp' & Hpq').
      apply Hpq'. rewrite Forall_lookup in H. apply (H i p' Hp').
    + intros Hret x Hone. apply isOneOf_true_Exists in Hone.
      apply Exists_exists in Hone as (p' & Hin & Hp').
      apply list_elem_of_lookup in Hin as [i Hi].
      destruct (Forall2_lookup_l _ _ _ _ _ Himp Hi) as (q' & Hq' & Hpq').
      destruct (isOneOf_decided qs x (Hret x)) as [[Ht _]|[_ Hf]];
        [exact Ht|].
      rewrite Forall_lookup in Hf. specialize (Hf i q' Hq').
      apply Hpq' in Hp'. congruence.
  - intros Hde strict x. destruct (descriptor_implies d e Hde) as [Hkeys He].
    assert (Hloose : isObjectOfLoose d x = Ok true ->
                     isObjectOfLoose e x = Ok true).
    { rewrite !isObjectOfLoose_true. intros [Hx H]. split; [exact Hx|].
      intros k q' Hk. destruct (He k q' Hk) as (p' & Hp' & Hpq').
      destruct (H k p' Hp') as (v & Hv & Hacc). exists v.
      split; [exact Hv | apply Hpq', Hacc]. }
    unfold isObjectOf. destruct (default false strict); [|exact Hloose].
    rewrite !isObjectOfStrict_true, Hkeys.
    intros (Hx & H & Hks). split; [exact Hx|]. split; [|exact Hks].
    apply (proj1 (isObjectOfLoose_true e x)).
    apply Hloose, isObjectOfLoose_true. split; assumption.
Qed.

(** An array of the literal ["a"] is an array of strings. *)
Lemma isArrayOf_literal_is_isArrayOf_string :
  isArrayOf isString (VArray [Fixture.str "a"; Fixture.str "a"]) = Ok true.
Proof.
  apply (combinators_are_monotone (isLiteralOf (PString "a")) isString [] [] [] []).
  - intros x H. destruct x as [[]| | |]; try discriminate. reflexivity.
  - vm_compute. reflexivity.
Defined.

(** * Further laws of as.ts *)

Lemma asOptional_keeps_others (pred f : Fn) (st : State) :
  allocated st f ->
  isOptional (As.asOptional pred st).2 f = isOptional st f
  /\ getPredicateFactoryMetadata (As.asOptional pred st).2 f
     = getPredicateFactoryMetadata st f.
Proof.
  unfold allocated. intros Hf. unfold As.asOptional.
  destruct (isOptional st pred); [split; reflexivity|].
  cbn. split.
  - unfold isOptional. cbn. apply bool_decide_ext.
    rewrite elem_of_union, elem_of_singleton.
    split; [intros [H|H]; [lia | exact H] | intros H; right; exact H].
  - unfold getPredicateFactoryMetadata. cbn. apply lookup_insert_ne. lia.
Qed.

(** X19. Unwrapping and wrapping again (as.ts, part_000).  For a predicate
    [p] without the optional facet, [asRequired] applied twice to
    [asOptional(p)] is still [p].  Nothing is cached: a second
    [asOptional(p)] is another object than the first, it accepts the same
    values, and both unwrap to [p]. *)
Theorem asOptional_twice_asRequired_twice (pred : Fn) (st : State) :
  allocated st pred ->
  isOptional st pred = false ->
  let '(q, st1) := As.asOptional pred st in
  let '(q2, st2) := As.asOptional pred st1 in
  As.asRequired st1 q = Ok (Some pred)
  /\ As.asRequired st1 pred = Ok (Some pred)
  /\ addr q2 ≠ addr q
  /\ (forall x, call q2 x = call q x)
  /\ As.asRequired st2 q2 = Ok (Some pred)
  /\ As.asRequired st2 q = Ok (Some pred).
Proof.
  intros Halloc Hopt.
  pose proof (asOptional_fresh pred st Hopt) as H1.
  pose proof (asOptional_keeps_others pred pred st Halloc) as [Hkeep _].
  destruct (As.asOptional pred st) as [q st1]. cbn [snd] in Hkeep.
  destruct H1 as (Haddr & Hcall & Hnext & Hq & Hm).
  rewrite Hopt in Hkeep.
  pose proof (asOptional_fresh pred st1 Hkeep) as H2.
  assert (Hq1 : allocated st1 q) by (unfold allocated; lia).
  pose proof (asOptional_keeps_others pred q st1 Hq1) as [Hkq Hkm].
  destruct (As.asOptional pred st1) as [q2 st2]. cbn [snd] in Hkq, Hkm.
  destruct H2 as (Haddr2 & Hcall2 & _ & Hq2 & Hm2).
  unfold As.asRequired. rewrite Hq, Hm, Hkeep, Hq2, Hm2, Hkq, Hkm, Hq, Hm.
  repeat split.
  - lia.
  - intros x. rewrite Hcall, Hcall2. reflexivity.
Qed.

(** [as.Optional(is.String)] built twice; [as.Required] of either is
    [is.String]. *)
Lemma asOptional_twice_isString :
  let '(q, st1) := As.asOptional Fixture.isString_fn Fixture.st0 in
  let '(q2, st2) := As.asOptional Fixture.isString_fn st1 in
  addr q2 ≠ addr q
  /\ As.asRequired st2 q2 = Ok (Some Fixture.isString_fn)
  /\ As.asRequired st2 q = Ok (Some Fixture.isString_fn).
Proof.
  pose proof (asOptional_twice_asRequired_twice Fixture.isString_fn Fixture.st0)
    as H.
  destruct (As.asOptional Fixture.isString_fn Fixture.st0) as [q st1].
  destruct (As.asOptional Fixture.isString_fn st1) as [q2 st2].
  destruct H as (_ & _ & Hne & _ & H2 & H1).
  - unfold allocated. vm_compute. lia.
  - vm_compute. reflexivity.
  - repeat split; assumption.
Defined.

(** X20. The round trip of the later revision (as.ts, part_001).
    [asOptional(p)] records [{ name: "asOptional", args: [p] }] for its
    result.  When the facet test recognises that result, [asRequired] of it
    is [p] itself; when it does not, [asRequired] returns the wrapper
    unchanged. *)
Theorem asRequired_asOptional_next (isOptional' : State -> Fn -> bool)
    (pred : Fn) (st : State) :
  isOptional' st pred = false ->
  let '(q, st1) := AsNext.asOptional isOptional' pred st in
  getPredicateFactoryMetadata st1 q
  = Some {| name := "asOptional"; args := [pred] |}
  /\ (isOptional' st1 q = true ->
      AsNext.asRequired isOptional' st1 q = Ok (Some pred))
  /\ (isOptional' st1 q = false ->
      AsNext.asRequired isOptional' st1 q = Ok (Some q)).
Proof.
  intros Hopt. unfold AsNext.asOptional. rewrite Hopt.
  cbn [new_function setPredicateFactoryMetadata].
  unfold AsNext.asRequired, getPredicateFactoryMetadata.
  cbn [metadata addr]. rewrite lookup_insert_eq.
  split; [reflexivity|]. split; intros ->; reflexivity.
Qed.

(** With the facet test that reads the factory name,
    [as.Required(as.Optional(is.String))] is [is.String]. *)
Lemma asRequired_asOptional_next_isString :
  AsNext.asRequired Fixture.named_asOptional
    (AsNext.asOptional Fixture.named_asOptional Fixture.isString_fn
       Fixture.st0).2
    (AsNext.asOptional Fixture.named_asOptional Fixture.isString_fn
       Fixture.st0).1
  = Ok (Some Fixture.isString_fn).
Proof.
  pose proof (asRequired_asOptional_next Fixture.named_asOptional
                Fixture.isString_fn Fixture.st0) as H.
  destruct (AsNext.asOptional Fixture.named_asOptional Fixture.isString_fn
              Fixture.st0) as [q st1] eqn:Hq.
  destruct H as (Hm & Hyes & _).
  - vm_compute. reflexivity.
  - apply Hyes. unfold Fixture.named_asOptional. rewrite Hm. reflexivity.
Defined.

(** X21. When [asRequired] (as.ts, part_000) raises.  It raises exactly on
    a predicate that carries the optional facet and has no metadata, and
    what it raises is a [TypeError]: such is every function that was given
    [optional: true] by hand and never passed through a factory that
    records metadata. *)
Theorem asRequired_raises_without_metadata (pred : Fn) (st : State) :
  (As.asRequired st pred = Throw TypeError
   <-> isOptional st pred = true
       /\ getPredicateFactoryMetadata st pred = None)
  /\ (forall e, As.asRequired st pred = Throw e -> e = TypeError)
  /\ (forall code, well_formed st ->
      let '(f, st1) := new_function code st in
      let '(f, st2) := define_optional f st1 in
      As.asRequired st2 f = Throw TypeError).
Proof.
  unfold As.asRequired. split; [|split].
  - destruct (isOptional st pred); cbn.
    + destruct (getPredicateFactoryMetadata st pred); split;
        try discriminate; auto. intros [_ [=]].
    + split; [discriminate | intros [[=] _]].
  - intros e. destruct (isOptional st pred); cbn; [|discriminate].
    destruct (getPredicateFactoryMetadata st pred); [discriminate|].
    intros [= <-]. reflexivity.
  - intros code [_ Hm]. cbn.
    assert (Hopt : isOptional
                     {| next_addr := S (next_addr st);
                        optional_props := {[next_addr st]} ∪ optional_props st;
                        metadata := metadata st |}
                     {| addr := next_addr st; call := code |} = true).
    { apply bool_decide_eq_true. cbn. set_solver. }
    rewrite Hopt. cbn. unfold getPredicateFactoryMetadata. cbn.
    destruct (metadata st !! next_addr st) as [m|] eqn:Hl; [|reflexivity].
    exfalso. specialize (Hm (next_addr st)). rewrite Hl in Hm.
    specialize (Hm (ltac:(eauto))). lia.
Qed.

(** A function written by hand with [optional: true] cannot be unwrapped. *)
Lemma asRequired_of_hand_written :
  As.asRequired (Fixture.hand_written isString Fixture.st0).2
    (Fixture.hand_written isString Fixture.st0).1 = Throw TypeError.
Proof.
  apply (asRequired_raises_without_metadata Fixture.isString_fn Fixture.st0).
  apply well_formed_new_function, well_formed_initial.
Defined.

(** ** The readonly modifier *)


